(** * The auto-scaling control loop of [compose scale --auto]

    A shallow embedding of the auto-scaling part of the [scale] command
    (cmd/compose/scale.go): the three strategy functions, the replica
    limits, the per-service loop body of [checkAndScale] and the outer
    loop of [runAutoScale].

    - Go's [int] is the 64-bit two's complement integer of the released
      amd64 binaries: a [Z] with the wrap-around written out.
    - Go's [float64] is IEEE 754 binary64, taken from the executable
      specification [SpecFloat] of the Standard Library (precision 53,
      [emax] 1024, round to nearest even).
    - [project.Services] is a map from service names to service
      configurations: a [gmap string ServiceConfig].
    - printing and the calls to the backend are recorded as a trace of
      events. *)

From Stdlib Require Import ZArith Lia Bool.
From Stdlib Require Import Floats.SpecFloat.
From stdpp Require Import gmap strings list sorting.
From Stdlib Require Import Ascii.

Open Scope Z_scope.

(** ** Go's [int] *)

Module GoInt.

Definition min_int : Z := - 2 ^ 63.
Definition max_int : Z := 2 ^ 63 - 1.

Definition is_int (z : Z) : Prop := min_int <= z <= max_int.

Definition in_range (z : Z) : bool := (min_int <=? z) && (z <=? max_int).

(** Two's complement wrap-around of an arithmetic result. *)
Definition wrap (z : Z) : Z := (z + 2 ^ 63) mod 2 ^ 64 - 2 ^ 63.

Definition add (a b : Z) : Z := wrap (a + b).
Definition sub (a b : Z) : Z := wrap (a - b).

End GoInt.

(** ** Go's [float64] *)

Module Float64.

Definition prec : Z := 53.
Definition emax : Z := 1024.

Definition float64 : Set := spec_float.

Definition mul : float64 -> float64 -> float64 := SFmul prec emax.
Definition add : float64 -> float64 -> float64 := SFadd prec emax.
Definition sub : float64 -> float64 -> float64 := SFsub prec emax.
Definition div : float64 -> float64 -> float64 := SFdiv prec emax.

(** [x < y] and [x > y]; both are false as soon as one side is a NaN. *)
Definition lt (x y : float64) : bool := SFltb x y.
Definition gt (x y : float64) : bool := SFltb y x.

(** The conversion [float64(n)] of an [int]: round to nearest even. *)
Definition of_int (n : Z) : float64 := binary_normalize prec emax n 0 false.

(** The integer part of a finite float, rounded towards zero. *)
Definition trunc (f : float64) : option Z :=
  match f with
  | S754_zero _ => Some 0
  | S754_finite s m e =>
      Some (cond_Zopp s
              (match e with
               | Zneg p => Z.pos m / 2 ^ Z.pos p
               | _ => Z.pos m * 2 ^ e
               end))
  | S754_infinity _ | S754_nan => None
  end.

(** The conversion [int(f)]: the fraction is discarded.  When the value
    does not fit an [int] (or is a NaN or an infinity) Go leaves the
    result to the implementation; on amd64 the conversion instruction
    CVTTSD2SQ then yields the "integer indefinite" value [-2^63]. *)
Definition to_int (f : float64) : Z :=
  match trunc f with
  | Some z => if GoInt.in_range z then z else GoInt.min_int
  | None => GoInt.min_int
  end.

(** The float64 constants of the source.  [1.5], [0.75] and [0.5] are
    binary fractions; [0.7] and [1.2] are the nearest doubles of the
    decimal literals. *)
Definition c1_5 : float64 := S754_finite false 6755399441055744 (-52).
Definition c0_75 : float64 := S754_finite false 6755399441055744 (-53).
Definition c0_5 : float64 := S754_finite false 4503599627370496 (-53).
Definition c0_7 : float64 := S754_finite false 6305039478318694 (-53).
Definition c1_2 : float64 := S754_finite false 5404319552844595 (-52).

End Float64.

Import Float64.

(** ** The options of the command *)

(** [scaleOptions]; the embedded [*ProjectOptions] belongs to the project
    loader and is not read by the auto-scaler. *)
Record scaleOptions : Type := {
  noDeps : bool;
  auto : bool;
  cpuThreshold : float64;
  memThreshold : float64;
  minReplicas : Z;
  maxReplicas : Z;
  interval : Z;
  strategy : string
}.

(** The defaults set by [scaleCommand]. *)
Definition default_options : scaleOptions := {|
  noDeps := false;
  auto := false;
  cpuThreshold := of_int 70;
  memThreshold := of_int 70;
  minReplicas := 1;
  maxReplicas := 10;
  interval := 30;
  strategy := "balanced"
|}.

(** ** The three strategies *)

Definition calculatePerformanceScale
    (currentScale : Z) (cpuUsage memUsage : float64) (opts : scaleOptions) : Z :=
  if gt cpuUsage (cpuThreshold opts) || gt memUsage (memThreshold opts) then
    to_int (mul (of_int currentScale) c1_5)
  else if lt cpuUsage (mul (cpuThreshold opts) c0_5)
          && lt memUsage (mul (memThreshold opts) c0_5)
          && (minReplicas opts <? currentScale) then
    GoInt.sub currentScale 1
  else currentScale.

(** In [a || b && c] Go's [&&] binds tighter than [||]. *)
Definition calculateEfficiencyScale
    (currentScale : Z) (cpuUsage memUsage : float64) (opts : scaleOptions) : Z :=
  if gt cpuUsage (mul (cpuThreshold opts) c1_2)
     || gt memUsage (mul (memThreshold opts) c1_2) then
    GoInt.add currentScale 1
  else if lt cpuUsage (cpuThreshold opts)
          || (lt memUsage (memThreshold opts) && (minReplicas opts <? currentScale)) then
    to_int (mul (of_int currentScale) c0_75)
  else currentScale.

Definition calculateBalancedScale
    (currentScale : Z) (cpuUsage memUsage : float64) (opts : scaleOptions) : Z :=
  if gt cpuUsage (cpuThreshold opts) || gt memUsage (memThreshold opts) then
    GoInt.add currentScale 1
  else if lt cpuUsage (mul (cpuThreshold opts) c0_7)
          && lt memUsage (mul (memThreshold opts) c0_7)
          && (minReplicas opts <? currentScale) then
    GoInt.sub currentScale 1
  else currentScale.

(** The [switch opts.strategy] of [checkAndScale]. *)
Definition decideScale
    (currentScale : Z) (cpuUsage memUsage : float64) (opts : scaleOptions) : Z :=
  if String.eqb (strategy opts) "performance" then
    calculatePerformanceScale currentScale cpuUsage memUsage opts
  else if String.eqb (strategy opts) "efficiency" then
    calculateEfficiencyScale currentScale cpuUsage memUsage opts
  else
    calculateBalancedScale currentScale cpuUsage memUsage opts.

(** "Apply scale limits": the two [if]s that follow the switch, in the
    order of the source. *)
Definition applyScaleLimits (newScale : Z) (opts : scaleOptions) : Z :=
  let newScale := if newScale <? minReplicas opts then minReplicas opts else newScale in
  if maxReplicas opts <? newScale then maxReplicas opts else newScale.

Definition with_strategy (s : string) (opts : scaleOptions) : scaleOptions :=
  {| noDeps := noDeps opts; auto := auto opts;
     cpuThreshold := cpuThreshold opts; memThreshold := memThreshold opts;
     minReplicas := minReplicas opts; maxReplicas := maxReplicas opts;
     interval := interval opts; strategy := s |}.

(** ** Services, the project and the trace *)

Definition error : Set := string.

(** [types.ServiceConfig] of compose-go, cut down to what the auto-scaler
    reads and writes.  [Scale] is a [*int]: [None] is the nil pointer. *)
Record ServiceConfig : Set := {
  Name : string;
  Scale : option Z
}.

(** [service.SetScale(n)] stores a pointer to a fresh copy of [n], so no
    two configurations share a scale cell: the field has value semantics.
    (It also mirrors [n] into [Deploy.Replicas], which the loop never
    reads.) *)
Definition SetScale (service : ServiceConfig) (scale : Z) : ServiceConfig :=
  {| Name := Name service; Scale := Some scale |}.

Record Project : Type := {
  ProjectName : string;
  Services : gmap string ServiceConfig
}.

(** What [fmt.Printf] and [fmt.Println] write, one constructor per format
    string of the auto-scaler. *)
Inductive Line : Type :=
| LStarting (strategyName : string)
| LThresholds (cpu mem : float64)
| LReplicaRange (lo hi : Z)
| LCheckInterval (seconds : Z)
| LServices (names : gset string)
| LStopped
| LError (err : error)
| LUsageWarning (serviceName : string) (err : error)
| LStatus (serviceName : string) (currentScale : Z) (cpu mem : float64)
| LScaling (serviceName : string) (currentScale newScale : Z)
| LScaleWarning (serviceName : string) (err : error)
| LScaled (serviceName : string) (newScale : Z).

Inductive Event : Type :=
| Printf (l : Line)
  (** [backend.Scale(ctx, project, api.ScaleOptions{Services: [serviceName]})],
      with the project as it is at the time of the call *)
| BackendScale (project : Project) (serviceName : string)
| Sleep (seconds : Z).

(** ** The collaborators during one tick

    The map iteration of Go visits the keys in an order of its choosing,
    once each; the sampler and the backend answer once per service. *)
Record Tick : Type := {
  order : list string;
  usage : string -> float64 * float64 * option error;
  scaleResult : string -> option error
}.

(** [getServiceResourceUsage], given the two numbers drawn by
    [rand.Float64()]: it never fails. *)
Definition getServiceResourceUsage (r1 r2 : float64) : float64 * float64 * option error :=
  (add (of_int 50) (sub (mul r1 (of_int 20)) (of_int 10)),
   add (of_int 50) (sub (mul r2 (of_int 20)) (of_int 10)),
   None).

(** A tick of the program as shipped: every sample comes from
    [getServiceResourceUsage]. *)
Definition shippedTick (names : list string) (draws : string -> float64 * float64)
    (results : string -> option error) : Tick :=
  {| order := names;
     usage := fun serviceName =>
       getServiceResourceUsage (fst (draws serviceName)) (snd (draws serviceName));
     scaleResult := results |}.

(** ** The state of the loop

    [checkAndScale] receives the project and the map [services] it ranges
    over.  When no service was named on the command line that map IS
    [project.Services] (Go maps are references), otherwise it is a map of
    its own, filled once before the loop and never written again. *)
Inductive ServiceSet : Type :=
| SameAsProject
| Copy (m : gmap string ServiceConfig).

Record State : Type := {
  project : Project;
  services : ServiceSet
}.

Definition servicesMap (st : State) : gmap string ServiceConfig :=
  match services st with
  | SameAsProject => Services (project st)
  | Copy m => m
  end.

Definition currentScaleOf (service : ServiceConfig) : Z :=
  match Scale service with
  | None => 1
  | Some n => n
  end.

(** The clamped decision for a service, from a successful sample. *)
Definition targetScale (opts : scaleOptions) (service : ServiceConfig)
    (cpu mem : float64) : Z :=
  applyScaleLimits (decideScale (currentScaleOf service) cpu mem opts) opts.

(** [project.Services[serviceName] = service] *)
Definition setService (p : Project) (serviceName : string) (service : ServiceConfig) : Project :=
  {| ProjectName := ProjectName p;
     Services := <[serviceName := service]> (Services p) |}.

(** The body of the [for ... range services] loop of [checkAndScale]. *)
Definition scaleService (t : Tick) (opts : scaleOptions)
    (serviceName : string) (service : ServiceConfig) (p : Project) : Project * list Event :=
  let currentScale := currentScaleOf service in
  match usage t serviceName with
  | (_, _, Some err) => (p, [Printf (LUsageWarning serviceName err)])
  | (cpuUsage, memUsage, None) =>
      let status := Printf (LStatus serviceName currentScale cpuUsage memUsage) in
      let newScale := targetScale opts service cpuUsage memUsage in
      if newScale =? currentScale then (p, [status])
      else
        let p' := setService p serviceName (SetScale service newScale) in
        (p', [status;
              Printf (LScaling serviceName currentScale newScale);
              BackendScale p' serviceName;
              Printf (match scaleResult t serviceName with
                      | Some err => LScaleWarning serviceName err
                      | None => LScaled serviceName newScale
                      end)])
  end.

Definition withProject (st : State) (p : Project) : State :=
  {| project := p; services := services st |}.

Fixpoint rangeServices (t : Tick) (opts : scaleOptions) (names : list string)
    (st : State) : State * list Event :=
  match names with
  | [] => (st, [])
  | serviceName :: rest =>
      match servicesMap st !! serviceName with
      | None => rangeServices t opts rest st
      | Some service =>
          let '(p', evs) := scaleService t opts serviceName service (project st) in
          let '(st', evs') := rangeServices t opts rest (withProject st p') in
          (st', evs ++ evs')
      end
  end.

Definition checkAndScale (t : Tick) (opts : scaleOptions) (st : State)
    : State * list Event * option error :=
  let '(st', evs) := rangeServices t opts (order t) st in
  (st', evs, None).

(** ** The outer loop *)

(** The map [filteredServices] built when services were named. *)
Definition filterServices (p : Project) (names : list string) : gmap string ServiceConfig :=
  fold_left
    (fun filtered serviceName =>
       match Services p !! serviceName with
       | Some service => <[serviceName := service]> filtered
       | None => filtered
       end)
    names ∅.

Definition initialState (p : Project) (names : list string) : State :=
  {| project := p;
     services := match names with
                 | [] => SameAsProject
                 | _ => Copy (filterServices p names)
                 end |}.

(** The [for { select { ... } }] loop.  The list holds one entry per
    iteration that found the context still alive; the iteration after the
    last one finds it cancelled. *)
Fixpoint autoScaleLoop (opts : scaleOptions) (ticks : list Tick) (st : State)
    : State * list Event :=
  match ticks with
  | [] => (st, [Printf LStopped])
  | t :: rest =>
      let '(st', evs, err) := checkAndScale t opts st in
      let report := match err with
                    | Some e => [Printf (LError e)]
                    | None => []
                    end in
      let '(st'', evs') := autoScaleLoop opts rest st' in
      (st'', evs ++ report ++ Sleep (interval opts) :: evs')
  end.

(** [runAutoScale]: [newBackend] and [toProject] are the outcomes of
    [compose.NewComposeService] and [opts.ToProject]. *)
Definition runAutoScale (newBackend : option error) (toProject : error + Project)
    (opts : scaleOptions) (names : list string) (ticks : list Tick)
    : list Event * option error :=
  match newBackend with
  | Some err => ([], Some err)
  | None =>
      match toProject with
      | inl err => ([], Some err)
      | inr p =>
          let st := initialState p names in
          let banner :=
            [Printf (LStarting (strategy opts));
             Printf (LThresholds (cpuThreshold opts) (memThreshold opts));
             Printf (LReplicaRange (minReplicas opts) (maxReplicas opts));
             Printf (LCheckInterval (interval opts));
             Printf (LServices (dom (servicesMap st)))] in
          (banner ++ snd (autoScaleLoop opts ticks st), None)
      end
  end.

(** ** Reading a trace *)



Definition isScaleOf (serviceName : string) (e : Event) : bool :=
  match e with
  | BackendScale _ n => String.eqb n serviceName
  | _ => false
  end.

(** The calls to the backend for one service. *)
Definition scaleCalls (serviceName : string) (evs : list Event) : list Event :=
  List.filter (isScaleOf serviceName) evs.

(** The lines a trace printed. *)
Definition printed (evs : list Event) : list Line :=
  flat_map (fun e => match e with Printf l => [l] | _ => [] end) evs.

(** The replica bounds of the options. *)
Definition inBounds (opts : scaleOptions) (n : Z) : Prop :=
  minReplicas opts <= n <= maxReplicas opts.

(** The scale that [project.Services] records for a service. *)
Definition recordedScale (p : Project) (serviceName : string) : option Z :=
  currentScaleOf <$> Services p !! serviceName.

(** ** A one-service project for the examples *)

Definition with_replicas (lo hi : Z) (opts : scaleOptions) : scaleOptions :=
  {| noDeps := noDeps opts; auto := auto opts;
     cpuThreshold := cpuThreshold opts; memThreshold := memThreshold opts;
     minReplicas := lo; maxReplicas := hi;
     interval := interval opts; strategy := strategy opts |}.

Definition web (replicas : Z) : ServiceConfig :=
  {| Name := "web"; Scale := Some replicas |}.

Definition demoProject : Project :=
  {| ProjectName := "demo"; Services := {[ "web"%string := web 2 ]} |}.

(** A tick that finds [web] at 80% CPU and 50% memory; [result] is what
    the backend answers. *)
Definition busyTick (result : option error) : Tick :=
  {| order := ["web"%string];
     usage := fun _ => (of_int 80, of_int 50, None);
     scaleResult := fun _ => result |}.

Definition demoState : State := initialState demoProject [].

(** A tick that finds [web] at 60% CPU and memory. *)
Definition calmTick : Tick :=
  {| order := ["web"%string];
     usage := fun _ => (of_int 60, of_int 60, None);
     scaleResult := fun _ => None |}.

(** A tick in which the sampler fails. *)
Definition blindTick : Tick :=
  {| order := ["web"%string];
     usage := fun _ => (S754_zero false, S754_zero false, Some "timeout"%string);
     scaleResult := fun _ => None |}.

(** The scale recorded for a service lies within the bounds. *)
Definition scaleWithin (opts : scaleOptions) (serviceName : string) (st : State) : Prop :=
  exists n, recordedScale (project st) serviceName = Some n /\ inBounds opts n.

(** The loop invariant for a monitored service: the scale recorded in the
    project is the one the loop reads for it, or has been brought within
    the bounds. *)
Definition tracked (opts : scaleOptions) (serviceName : string) (st : State) : Prop :=
  exists service n,
    servicesMap st !! serviceName = Some service
    /\ recordedScale (project st) serviceName = Some n
    /\ (n = currentScaleOf service \/ inBounds opts n).

(** ** Manual scaling: [SERVICE=REPLICAS] arguments *)

(** [strings.Cut(s, "=")]: the text before and after the first ['='],
    and whether there is one; without one, the whole of [s] and the empty
    string. *)
Fixpoint cutEq (s : string) : string * string * bool :=
  match s with
  | EmptyString => (EmptyString, EmptyString, false)
  | String c rest =>
      if Ascii.eqb c "="%char then (EmptyString, rest, true)
      else
        let '(before, after, found) := cutEq rest in
        (String c before, after, found)
  end.

Definition digitValue (c : ascii) : option Z :=
  let n := Z.of_N (N_of_ascii c) in
  if (48 <=? n) && (n <=? 57) then Some (n - 48) else None.

Fixpoint parseDigits (s : string) (acc : Z) : option Z :=
  match s with
  | EmptyString => Some acc
  | String c rest =>
      match digitValue c with
      | Some d => parseDigits rest (acc * 10 + d)
      | None => None
      end
  end.

(** [strconv.Atoi] of the Go library: an optional sign, then one decimal
    digit or more, and a value that fits an [int]; anything else is an
    error ([None]; the caller does not look at it). *)
Definition Atoi (s : string) : option Z :=
  let '(negative, digits) :=
    match s with
    | String "-"%char rest => (true, rest)
    | String "+"%char rest => (false, rest)
    | _ => (false, s)
    end in
  match digits with
  | EmptyString => None
  | _ =>
      match parseDigits digits 0 with
      | Some n =>
          let value := if negative : bool then - n else n in
          if GoInt.in_range value then Some value else None
      | None => None
      end
  end.

(** One turn of the loop of [parseServicesReplicasArgs]. *)
Definition parseServiceReplicas (arg : string) : error + string * Z :=
  let '(key, val, ok) := cutEq arg in
  if negb ok || String.eqb key "" || String.eqb val "" then
    inl ("invalid scale specifier: " ++ arg)%string
  else
    match Atoi val with
    | None =>
        inl ("invalid scale specifier: can't parse replica value as int: " ++ arg)%string
    | Some intValue => inr (key, intValue)
    end.

Fixpoint parseInto (args : list string) (serviceReplicaTuples : gmap string Z)
    : error + gmap string Z :=
  match args with
  | [] => inr serviceReplicaTuples
  | arg :: rest =>
      match parseServiceReplicas arg with
      | inl err => inl err
      | inr (key, intValue) => parseInto rest (<[key := intValue]> serviceReplicaTuples)
      end
  end.

Definition parseServicesReplicasArgs (args : list string) : error + gmap string Z :=
  parseInto args ∅.

(** ** Manual scaling: [runScale] *)

(** The order of Go on strings: bytes, lexicographically. *)
Definition stringLe (a b : string) : Prop := String.leb a b = true.

#[local] Instance stringLe_dec (a b : string) : Decision (stringLe a b).
Proof. unfold stringLe. apply _. Defined.

(** [slices.Sorted(maps.Keys(serviceReplicaTuples))] *)
Definition sortedKeys (serviceReplicaTuples : gmap string Z) : list string :=
  merge_sort stringLe (elements (dom serviceReplicaTuples)).

(** [project.GetService] of compose-go: the configuration of a service
    of the project, or an error. *)
Definition GetService (p : Project) (serviceName : string) : error + ServiceConfig :=
  match Services p !! serviceName with
  | Some service => inr service
  | None => inl ("no such service: " ++ serviceName)%string
  end.

(** The [for key, value := range serviceReplicaTuples] loop; [keys] is
    the order in which Go visits the map. *)
Fixpoint setScales (keys : list string) (serviceReplicaTuples : gmap string Z)
    (p : Project) : error + Project :=
  match keys with
  | [] => inr p
  | key :: rest =>
      match serviceReplicaTuples !! key with
      | None => setScales rest serviceReplicaTuples p
      | Some value =>
          match GetService p key with
          | inl err => inl err
          | inr service =>
              setScales rest serviceReplicaTuples (setService p key (SetScale service value))
          end
      end
  end.

(** What [runScale] hands to [backend.Scale]. *)
Record ScaleRequest : Type := {
  requestProject : Project;
  requestServices : list string
}.

(** The collaborators of the manual path: [compose.NewComposeService],
    [opts.ToProject] (given the service names), the project method
    [WithSelectedServices(services, types.IgnoreDependencies)],
    [backend.Scale], and the order of the map iteration. *)
Record Manual : Type := {
  newBackend : option error;
  toProject : list string -> error + Project;
  withSelectedServices : Project -> list string -> error + Project;
  backendScale : ScaleRequest -> option error;
  keyOrder : list string
}.

(** [runScale]: the request made to the backend, if it came to that, and
    the error returned. *)
Definition runScale (env : Manual) (opts : scaleOptions)
    (serviceReplicaTuples : gmap string Z) : option ScaleRequest * option error :=
  match newBackend env with
  | Some err => (None, Some err)
  | None =>
      let services := sortedKeys serviceReplicaTuples in
      match toProject env services with
      | inl err => (None, Some err)
      | inr p =>
          match (if noDeps opts then withSelectedServices env p services else inr p) with
          | inl err => (None, Some err)
          | inr p =>
              match setScales (keyOrder env) serviceReplicaTuples p with
              | inl err => (None, Some err)
              | inr p =>
                  let request := {| requestProject := p; requestServices := services |} in
                  (Some request, backendScale env request)
              end
          end
      end
  end.

(** ** The command *)

Inductive RunResult : Type :=
| AutoRun (trace : list Event) (err : option error)
| ManualRun (request : option ScaleRequest) (err : option error).

(** The [RunE] of [scaleCommand]; [ticks] are the ticks the auto-scaler
    gets to run before it is cancelled. *)
Definition scaleCommandRun (env : Manual) (ticks : list Tick) (opts : scaleOptions)
    (args : list string) : RunResult :=
  if auto opts then
    let '(trace, err) := runAutoScale (newBackend env) (toProject env args) opts args ticks in
    AutoRun trace err
  else
    match args with
    | [] =>
        ManualRun None
          (Some "manual scaling requires at least one SERVICE=REPLICAS argument"%string)
    | _ =>
        match parseServicesReplicasArgs args with
        | inl err => ManualRun None (Some err)
        | inr serviceTuples =>
            let '(request, err) := runScale env opts serviceTuples in
            ManualRun request err
        end
    end.

(** Collaborators of a manual run that all succeed, for the examples. *)
Definition demoManual : Manual :=
  {| newBackend := None;
     toProject := fun _ => inr demoProject;
     withSelectedServices := fun p _ => inr p;
     backendScale := fun _ => None;
     keyOrder := ["web"%string] |}.

Definition demoRequest : ScaleRequest :=
  {| requestProject := setService demoProject "web" (web 5);
     requestServices := ["web"%string] |}.

(** ** Reading a tick as a whole *)

(** What the body makes of the entry of a service: the new configuration
    when a sample was obtained and the limited decision differs from the
    current scale. *)
Definition scaledService (t : Tick) (opts : scaleOptions) (serviceName : string)
    (service : ServiceConfig) : option ServiceConfig :=
  match usage t serviceName with
  | (_, _, Some _) => None
  | (cpu, mem, None) =>
      if targetScale opts service cpu mem =? currentScaleOf service then None
      else Some (SetScale service (targetScale opts service cpu mem))
  end.

(** The entry of a service in [project.Services] after a tick that
    visited the services [names]. *)
Definition entryAfter (t : Tick) (opts : scaleOptions) (names : list string)
    (st : State) (serviceName : string) : option ServiceConfig :=
  if decide (serviceName ∈ names) then
    match servicesMap st !! serviceName with
    | Some service =>
        match scaledService t opts serviceName service with
        | Some service' => Some service'
        | None => Services (project st) !! serviceName
        end
    | None => Services (project st) !! serviceName
    end
  else Services (project st) !! serviceName.

(** Every monitored service is a service of the project. *)
Definition monitoredInProject (st : State) : Prop :=
  forall n, is_Some (servicesMap st !! n) -> is_Some (Services (project st) !! n).

Definition isBackendScale (e : Event) : bool :=
  match e with BackendScale _ _ => true | _ => false end.

(** All the calls to the backend in a trace. *)
Definition backendCalls (evs : list Event) : list Event := List.filter isBackendScale evs.

Definition NaN : float64 := S754_nan.

Definition with_thresholds (cpu mem : float64) (opts : scaleOptions) : scaleOptions :=
  {| noDeps := noDeps opts; auto := auto opts;
     cpuThreshold := cpu; memThreshold := mem;
     minReplicas := minReplicas opts; maxReplicas := maxReplicas opts;
     interval := interval opts; strategy := strategy opts |}.

(** * Facts about the float64 model

    Conversions of small integers and products with the constants [1.5]
    and [0.75] are exact; everything else about floats is computed. *)

Section iter.
Context {A : Type} (f : A -> A).

Lemma iter_pos_nat (p : positive) (x : A) :
  SpecFloat.iter_pos f p x = Nat.iter (Pos.to_nat p) f x.
Proof.
  revert x. induction p as [p IH | p IH |]; intros x; cbn [SpecFloat.iter_pos].
  - rewrite !IH, Pos2Nat.inj_xI.
    replace (S (2 * Pos.to_nat p))%nat with (Pos.to_nat p + (Pos.to_nat p + 1))%nat by lia.
    rewrite !Nat.iter_add. reflexivity.
  - rewrite !IH, Pos2Nat.inj_xO.
    replace (2 * Pos.to_nat p)%nat with (Pos.to_nat p + Pos.to_nat p)%nat by lia.
    rewrite Nat.iter_add. reflexivity.
  - reflexivity.
Qed.
End iter.

Lemma shr_1_even (m : Z) :
  0 <= m -> shr_1 (Build_shr_record (2 * m) false false) = Build_shr_record m false false.
Proof. intros Hm. destruct m as [| p | p]; [reflexivity | reflexivity | lia]. Qed.

Lemma shr_iter_exact (n : nat) (m : Z) :
  0 <= m ->
  Nat.iter n shr_1 (Build_shr_record (m * 2 ^ Z.of_nat n) false false)
  = Build_shr_record m false false.
Proof.
  revert m. induction n as [| n IH]; intros m Hm.
  - simpl. f_equal. lia.
  - rewrite Nat.iter_succ_r.
    replace (m * 2 ^ Z.of_nat (S n)) with (2 * (m * 2 ^ Z.of_nat n)).
    + rewrite shr_1_even by (apply Z.mul_nonneg_nonneg; [lia | apply Z.pow_nonneg; lia]).
      apply IH, Hm.
    + rewrite Nat2Z.inj_succ, Z.pow_succ_r by lia. ring.
  Qed.

Lemma digits2_pos_size (p : positive) : digits2_pos p = Pos.size p.
Proof. induction p; simpl; congruence. Qed.

Lemma digits2_bounds (p : positive) :
  2 ^ (Z.pos (digits2_pos p) - 1) <= Z.pos p < 2 ^ Z.pos (digits2_pos p).
Proof.
  induction p as [p IH | p IH |]; simpl digits2_pos.
  - rewrite Pos2Z.inj_succ. replace (Z.succ (Z.pos (digits2_pos p)) - 1) with (Z.succ (Z.pos (digits2_pos p) - 1)) by lia.
    rewrite !Z.pow_succ_r by lia. lia.
  - rewrite Pos2Z.inj_succ. replace (Z.succ (Z.pos (digits2_pos p)) - 1) with (Z.succ (Z.pos (digits2_pos p) - 1)) by lia.
    rewrite !Z.pow_succ_r by lia. lia.
  - simpl. lia.
Qed.

Lemma digits2_unique (p : positive) (d : Z) :
  2 ^ (d - 1) <= Z.pos p < 2 ^ d -> Z.pos (digits2_pos p) = d.
Proof.
  intros [Hlo Hhi]. pose proof (digits2_bounds p) as [Hlo' Hhi'].
  assert (Hd : 0 < d).
  { destruct (Z_lt_le_dec 0 d) as [|Hle]; [assumption|].
    destruct (Z.eq_dec d 0) as [->|]; [simpl in Hhi; lia|].
    rewrite Z.pow_neg_r in Hhi by lia. lia. }
  destruct (Z.lt_trichotomy (Z.pos (digits2_pos p)) d) as [Hlt | [Heq | Hgt]]; [|assumption|].
  - assert (2 ^ Z.pos (digits2_pos p) <= 2 ^ (d - 1)) by (apply Z.pow_le_mono_r; lia). lia.
  - assert (2 ^ d <= 2 ^ (Z.pos (digits2_pos p) - 1)) by (apply Z.pow_le_mono_r; lia). lia.
Qed.

Lemma digits2_shift (q : positive) (n : Z) (m : positive) :
  0 <= n -> Z.pos m = Z.pos q * 2 ^ n ->
  Z.pos (digits2_pos m) = Z.pos (digits2_pos q) + n.
Proof.
  intros Hn Hm. apply digits2_unique. rewrite Hm.
  pose proof (digits2_bounds q) as [Hlo Hhi].
  replace (Z.pos (digits2_pos q) + n - 1) with (Z.pos (digits2_pos q) - 1 + n) by lia.
  rewrite !Z.pow_add_r by lia.
  assert (0 < 2 ^ n) by (apply Z.pow_pos_nonneg; lia).
  split; [apply Z.mul_le_mono_nonneg_r | apply Z.mul_lt_mono_pos_r]; lia.
Qed.

Lemma shr_exact (m : Z) (e n : Z) :
  0 <= m -> 0 <= n ->
  shr (Build_shr_record (m * 2 ^ n) false false) e n
  = (Build_shr_record m false false, e + n).
Proof.
  intros Hm Hn. destruct n as [| p | p]; [| | lia].
  - simpl. rewrite Z.mul_1_r, Z.add_0_r. reflexivity.
  - unfold shr. rewrite iter_pos_nat.
    rewrite <- (positive_nat_Z p) at 1. rewrite shr_iter_exact by assumption. reflexivity.
Qed.

(** Rounding a mantissa whose discarded low bits are all zero is exact. *)
Lemma binary_round_aux_exact (s : bool) (q : positive) (n e : Z) (m : positive) :
  Z.pos (digits2_pos q) = 53 -> 0 <= n -> Z.pos m = Z.pos q * 2 ^ n ->
  -1074 <= e + n <= 971 ->
  binary_round_aux 53 1024 s (Z.pos m) e loc_Exact = S754_finite s q (e + n).
Proof.
  intros Hq Hn Hm He.
  unfold binary_round_aux.
  assert (H1 : shr_fexp 53 1024 (Z.pos m) e loc_Exact
               = (Build_shr_record (Z.pos q) false false, e + n)).
  { unfold shr_fexp, Zdigits2, shr_record_of_loc.
    rewrite (digits2_shift q n m Hn Hm), Hq.
    replace (fexp 53 1024 (53 + n + e) - e) with n
      by (unfold fexp, emin; lia).
    rewrite Hm. apply shr_exact; lia. }
  rewrite H1. cbn [shr_m loc_of_shr_record round_nearest_even].
  assert (H2 : shr_fexp 53 1024 (Z.pos q) (e + n) loc_Exact
               = (Build_shr_record (Z.pos q) false false, e + n)).
  { unfold shr_fexp, Zdigits2, shr_record_of_loc. rewrite Hq.
    replace (fexp 53 1024 (53 + (e + n)) - (e + n)) with 0
      by (unfold fexp, emin; lia).
    reflexivity. }
  rewrite H2. cbn [shr_m].
  replace (e + n <=? 1024 - 53) with true by (symmetry; apply Z.leb_le; lia).
  reflexivity.
Qed.

Lemma iter_xO_pow (p k : positive) : Z.pos (Pos.iter xO p k) = Z.pos p * 2 ^ Z.pos k.
Proof.
  rewrite <- Z.shiftl_mul_pow2 by lia. cbn [Z.shiftl].
  apply (Pos.iter_swap_gen _ _ Z.pos xO (Z.mul 2)). reflexivity.
Qed.

Lemma shl_align_spec (p : positive) (e e' : Z) :
  e' <= e ->
  exists m, shl_align p e e' = (m, e') /\ Z.pos m = Z.pos p * 2 ^ (e - e').
Proof.
  intros Hle. unfold shl_align.
  destruct (e' - e) as [| d | d] eqn:Hd; [| lia |].
  - exists p. assert (e' = e) as -> by lia. rewrite Z.sub_diag. split; [reflexivity | lia].
  - exists (Pos.iter xO p d). split; [reflexivity |].
    rewrite iter_xO_pow. do 2 f_equal. lia.
Qed.

(** The normal form of a positive integer with at most 53 significant
    bits: the conversion keeps its value. *)
Lemma normalize_pos (p : positive) :
  Z.pos p < 2 ^ 53 ->
  exists m, binary_normalize 53 1024 (Z.pos p) 0 false
            = S754_finite false m (Z.pos (digits2_pos p) - 53)
         /\ Z.pos m = Z.pos p * 2 ^ (53 - Z.pos (digits2_pos p))
         /\ Z.pos (digits2_pos m) = 53.
Proof.
  intros Hp. pose proof (digits2_bounds p) as [Hlo Hhi].
  set (d := Z.pos (digits2_pos p)) in *.
  assert (Hd : 1 <= d <= 53).
  { split; [subst d; lia |].
    destruct (Z_le_gt_dec d 53) as [|Hgt]; [assumption |].
    assert (2 ^ 53 <= 2 ^ (d - 1)) by (apply Z.pow_le_mono_r; lia). lia. }
  cbn [binary_normalize]. unfold binary_round.
  fold d. replace (fexp 53 1024 (d + 0)) with (d - 53) by (unfold fexp, emin; lia).
  destruct (shl_align_spec p 0 (d - 53)) as (m & -> & Hm); [lia |].
  replace (0 - (d - 53)) with (53 - d) in Hm by lia.
  assert (Hdm : Z.pos (digits2_pos m) = 53).
  { rewrite (digits2_shift p (53 - d) m) by (lia || assumption). fold d. lia. }
  exists m. split; [| split; assumption].
  rewrite (binary_round_aux_exact false m 0 (d - 53) m); try lia.
  f_equal. lia.
Qed.

Lemma trunc_finite_neg (s : bool) (m : positive) (e : Z) :
  e < 0 -> trunc (S754_finite s m e) = Some (cond_Zopp s (Z.pos m / 2 ^ (- e))).
Proof. intros He. destruct e as [| p | p]; [lia | lia | reflexivity]. Qed.

Lemma digits2_mono (p q : positive) :
  Z.pos p <= Z.pos q -> Z.pos (digits2_pos p) <= Z.pos (digits2_pos q).
Proof.
  intros Hpq. pose proof (digits2_bounds p) as [Hlo _].
  pose proof (digits2_bounds q) as [_ Hhi].
  destruct (Z_le_gt_dec (Z.pos (digits2_pos p)) (Z.pos (digits2_pos q))) as [|Hgt];
    [assumption |].
  assert (2 ^ Z.pos (digits2_pos q) <= 2 ^ (Z.pos (digits2_pos p) - 1))
    by (apply Z.pow_le_mono_r; lia).
  lia.
Qed.

(** Multiplying an integer [c] by the constant [3 * 2^51 * 2^ey] (1.5 for
    [ey = -52], 0.75 for [ey = -53]) is exact as long as [3 * c] has at
    most 53 bits. *)
Lemma mul_three_halves (p : positive) (ey : Z) :
  3 * Z.pos p < 2 ^ 53 -> -1000 <= ey <= -52 ->
  exists q, SFmul 53 1024 (binary_normalize 53 1024 (Z.pos p) 0 false)
                  (S754_finite false 6755399441055744 ey)
            = S754_finite false q (Z.pos (digits2_pos (3 * p)) - 2 + ey)
         /\ Z.pos q = 3 * Z.pos p * 2 ^ (53 - Z.pos (digits2_pos (3 * p))).
Proof.
  intros H3 Hey.
  destruct (normalize_pos p) as (m & -> & Hm & Hdm); [lia |].
  destruct (normalize_pos (3 * p)) as (q & _ & Hq & Hdq); [lia |].
  pose proof (digits2_mono p (3 * p) ltac:(lia)) as Hmono.
  pose proof (digits2_bounds (3 * p)) as [Hlo3 Hhi3].
  set (d := Z.pos (digits2_pos p)) in *.
  set (d3 := Z.pos (digits2_pos (3 * p))) in *.
  assert (Hd3 : d3 <= 53).
  { destruct (Z_le_gt_dec d3 53) as [|Hgt]; [assumption |].
    assert (2 ^ 53 <= 2 ^ (d3 - 1)) by (apply Z.pow_le_mono_r; lia). lia. }
  assert (Hd : 1 <= d) by (subst d; lia).
  exists q. split; [| rewrite Hq; rewrite Pos2Z.inj_mul; reflexivity].
  cbn [SFmul xorb].
  rewrite (binary_round_aux_exact false q (51 + d3 - d) _ (m * 6755399441055744) Hdq).
  - f_equal. lia.
  - lia.
  - rewrite Pos2Z.inj_mul, Hm, Hq, Pos2Z.inj_mul.
    change (Z.pos 6755399441055744) with (3 * 2 ^ 51).
    transitivity (3 * Z.pos p * (2 ^ (53 - d) * 2 ^ 51)); [ring |].
    transitivity (3 * Z.pos p * (2 ^ (53 - d3) * 2 ^ (51 + d3 - d))); [| ring].
    rewrite <- !Z.pow_add_r by lia. do 2 f_equal. lia.
  - lia.
Qed.

(** [int(float64(c) * k)] for [k] one of [1.5] ([ey = -52]) and [0.75]
    ([ey = -53]): the exact quotient, rounded down. *)
Lemma to_int_mul_three (c ey : Z) :
  0 <= c -> 3 * c < 2 ^ 53 -> -1000 <= ey <= -52 ->
  to_int (mul (of_int c) (S754_finite false 6755399441055744 ey))
  = 3 * c / 2 ^ (- ey - 51).
Proof.
  intros Hc H3 Hey. unfold mul, of_int, prec, emax.
  destruct c as [| p | p]; [| | lia].
  - cbn. rewrite Z.div_0_l; [reflexivity |].
    apply Z.pow_nonzero; lia.
  - destruct (mul_three_halves p ey H3 Hey) as (q & -> & Hq).
    pose proof (digits2_bounds (3 * p)) as [Hlo3 Hhi3].
    set (d3 := Z.pos (digits2_pos (3 * p))) in *.
    assert (Hd3 : 1 <= d3 <= 53).
    { split; [subst d3; lia |].
      destruct (Z_le_gt_dec d3 53) as [|Hgt]; [assumption |].
      assert (2 ^ 53 <= 2 ^ (d3 - 1)) by (apply Z.pow_le_mono_r; lia). lia. }
    unfold to_int. rewrite trunc_finite_neg by lia.
    cbn [cond_Zopp]. rewrite Hq.
    replace (- (d3 - 2 + ey)) with ((- ey - 51) + (53 - d3)) by lia.
    rewrite Z.pow_add_r by lia.
    rewrite Z.div_mul_cancel_r
      by (apply Z.pow_nonzero; lia).
    assert (Hpow : 0 < 2 ^ (- ey - 51)) by (apply Z.pow_pos_nonneg; lia).
    assert (Hq0 : 0 <= 3 * Z.pos p / 2 ^ (- ey - 51)) by (apply Z.div_pos; lia).
    assert (Hq1 : 3 * Z.pos p / 2 ^ (- ey - 51) <= 3 * Z.pos p).
    { apply Z.div_le_upper_bound; [lia |]. nia. }
    replace (GoInt.in_range (3 * Z.pos p / 2 ^ (- ey - 51))) with true; [reflexivity |].
    symmetry. unfold GoInt.in_range, GoInt.min_int, GoInt.max_int.
    apply andb_true_iff. split; apply Z.leb_le; lia.
Qed.

Lemma to_int_mul_1_5 (c : Z) :
  0 <= c -> 3 * c < 2 ^ 53 -> to_int (mul (of_int c) c1_5) = 3 * c / 2.
Proof. intros Hc H3. apply (to_int_mul_three c (-52)); lia. Qed.

Lemma to_int_mul_0_75 (c : Z) :
  0 <= c -> 3 * c < 2 ^ 53 -> to_int (mul (of_int c) c0_75) = 3 * c / 4.
Proof. intros Hc H3. apply (to_int_mul_three c (-53)); lia. Qed.

(** The decimal constants are the correctly rounded quotients. *)
Lemma c0_7_nearest : c0_7 = div (of_int 7) (of_int 10).
Proof. reflexivity. Qed.

Lemma c1_2_nearest : c1_2 = div (of_int 12) (of_int 10).
Proof. reflexivity. Qed.

Lemma wrap_id (z : Z) : GoInt.is_int z -> GoInt.wrap z = z.
Proof.
  unfold GoInt.is_int, GoInt.wrap, GoInt.min_int, GoInt.max_int. intros Hz.
  rewrite Z.mod_small; lia.
Qed.

(** * The strategies *)

Lemma add_one_exact (c : Z) :
  GoInt.is_int c -> c < GoInt.max_int -> GoInt.add c 1 = c + 1.
Proof.
  intros Hc Hmax. apply wrap_id.
  unfold GoInt.is_int, GoInt.min_int, GoInt.max_int in *. lia.
Qed.

Lemma sub_one_exact (c lo : Z) :
  GoInt.is_int c -> GoInt.is_int lo -> lo < c -> GoInt.sub c 1 = c - 1.
Proof.
  intros Hc Hlo Hlt. apply wrap_id.
  unfold GoInt.is_int, GoInt.min_int, GoInt.max_int in *. lia.
Qed.

Lemma small_is_int (c : Z) : 0 <= c -> 3 * c < 2 ^ 53 -> GoInt.is_int c.
Proof. unfold GoInt.is_int, GoInt.min_int, GoInt.max_int. lia. Qed.



(** The switch runs the strategy that the name selects. *)
Lemma decideScale_performance (currentScale : Z) (cpu mem : float64) (opts : scaleOptions) :
  strategy opts = "performance"%string ->
  decideScale currentScale cpu mem opts
  = calculatePerformanceScale currentScale cpu mem opts.
Proof. intros Hs. unfold decideScale. rewrite Hs. reflexivity. Qed.

Lemma decideScale_efficiency (currentScale : Z) (cpu mem : float64) (opts : scaleOptions) :
  strategy opts = "efficiency"%string ->
  decideScale currentScale cpu mem opts
  = calculateEfficiencyScale currentScale cpu mem opts.
Proof. intros Hs. unfold decideScale. rewrite Hs. reflexivity. Qed.

Lemma performance_branches (currentScale : Z) (cpu mem : float64) (opts : scaleOptions) :
  0 <= currentScale ->
  3 * currentScale < 2 ^ 53 ->
  calculatePerformanceScale currentScale cpu mem opts
  = (if gt cpu (cpuThreshold opts) || gt mem (memThreshold opts) then
       3 * currentScale / 2
     else if lt cpu (mul (cpuThreshold opts) c0_5)
             && lt mem (mul (memThreshold opts) c0_5)
             && (minReplicas opts <? currentScale) then
       currentScale - 1
     else currentScale).
Proof.
  intros Hc H3. unfold calculatePerformanceScale.
  destruct (gt cpu (cpuThreshold opts) || gt mem (memThreshold opts)).
  - apply to_int_mul_1_5; assumption.
  - destruct (lt cpu (mul (cpuThreshold opts) c0_5)
              && lt mem (mul (memThreshold opts) c0_5)
              && (minReplicas opts <? currentScale)); [| reflexivity].
    apply wrap_id. unfold GoInt.is_int, GoInt.min_int, GoInt.max_int. lia.
Qed.

Lemma efficiency_branches (currentScale : Z) (cpu mem : float64) (opts : scaleOptions) :
  0 <= currentScale ->
  3 * currentScale < 2 ^ 53 ->
  calculateEfficiencyScale currentScale cpu mem opts
  = (if gt cpu (mul (cpuThreshold opts) c1_2)
        || gt mem (mul (memThreshold opts) c1_2) then
       currentScale + 1
     else if lt cpu (cpuThreshold opts)
             || (lt mem (memThreshold opts) && (minReplicas opts <? currentScale)) then
       3 * currentScale / 4
     else currentScale).
Proof.
  intros Hc H3. unfold calculateEfficiencyScale.
  destruct (gt cpu (mul (cpuThreshold opts) c1_2)
            || gt mem (mul (memThreshold opts) c1_2)).
  - apply wrap_id. unfold GoInt.is_int, GoInt.min_int, GoInt.max_int. lia.
  - destruct (lt cpu (cpuThreshold opts)
              || (lt mem (memThreshold opts) && (minReplicas opts <? currentScale)));
      [| reflexivity].
    apply to_int_mul_0_75; assumption.
Qed.

(** C6. For the performance strategy - the options name "performance",
    so that the switch of [checkAndScale] runs
    [calculatePerformanceScale] - the decision is
    [floor(currentScale * 1.5)] when [cpu > cpuThreshold] or
    [mem > memThreshold]; otherwise [currentScale - 1] when
    [cpu < 0.5 * cpuThreshold] and [mem < 0.5 * memThreshold] and
    [currentScale > minReplicas]; otherwise [currentScale].  The product
    is computed in float64 and converted back: it is the floor of the
    exact product for every scale from 0 on whose triple has at most 53
    bits.  With strategy performance, thresholds 70/70, cpu 90, mem 50
    and scale 2 the decision is 3. *)
Theorem C6_performance_scale (currentScale : Z) (cpu mem : float64) (opts : scaleOptions) :
  strategy opts = "performance"%string ->
  0 <= currentScale ->
  3 * currentScale < 2 ^ 53 ->
  decideScale currentScale cpu mem opts
  = (if gt cpu (cpuThreshold opts) || gt mem (memThreshold opts) then
       3 * currentScale / 2
     else if lt cpu (mul (cpuThreshold opts) c0_5)
             && lt mem (mul (memThreshold opts) c0_5)
             && (minReplicas opts <? currentScale) then
       currentScale - 1
     else currentScale)
  /\ decideScale currentScale cpu mem opts
     = calculatePerformanceScale currentScale cpu mem opts
  /\ decideScale 2 (of_int 90) (of_int 50) (with_strategy "performance" default_options)
     = 3.
Proof.
  intros Hs Hc H3.
  rewrite (decideScale_performance currentScale cpu mem opts Hs).
  split; [apply performance_branches; assumption |].
  split; reflexivity.
Qed.

Lemma C6_performance_scale_witness :
  strategy (with_strategy "performance" default_options) = "performance"%string
  /\ 0 <= 2 /\ 3 * 2 < 2 ^ 53
  /\ decideScale 2 (of_int 90) (of_int 50) (with_strategy "performance" default_options)
     = (if gt (of_int 90) (cpuThreshold (with_strategy "performance" default_options))
           || gt (of_int 50) (memThreshold (with_strategy "performance" default_options))
        then 3 * 2 / 2
        else if lt (of_int 90)
                  (mul (cpuThreshold (with_strategy "performance" default_options)) c0_5)
                && lt (of_int 50)
                     (mul (memThreshold (with_strategy "performance" default_options)) c0_5)
                && (minReplicas (with_strategy "performance" default_options) <? 2)
        then 2 - 1
        else 2).
Proof.
  assert (Hs : strategy (with_strategy "performance" default_options)
               = "performance"%string) by reflexivity.
  assert (H0 : 0 <= 2) by lia.
  assert (H3 : 3 * 2 < 2 ^ 53) by lia.
  split; [exact Hs | split; [exact H0 | split; [exact H3 |]]].
  exact (proj1 (C6_performance_scale 2 (of_int 90) (of_int 50)
                  (with_strategy "performance" default_options) Hs H0 H3)).
Defined.

(** C1. For the efficiency strategy - the options name "efficiency", so
    that the switch of [checkAndScale] runs [calculateEfficiencyScale] -
    the decision is [currentScale + 1] when [cpu > 1.2 * cpuThreshold] or
    [mem > 1.2 * memThreshold]; otherwise, when [cpu < cpuThreshold], or
    when [mem < memThreshold] and [currentScale > minReplicas], it is
    [floor(currentScale * 0.75)]; otherwise [currentScale].  In
    particular, when the scale-up branch is not taken and
    [cpu < cpuThreshold], the scale-down branch fires whatever [mem] and
    [minReplicas] are: with strategy efficiency, cpu 60, mem 80,
    thresholds 70/70, scale 4 and minimum 1 the decision is 3.  The
    product is computed in float64 and converted back: it is the floor of
    the exact product for every scale from 0 on whose triple has at most
    53 bits. *)
Theorem C1_efficiency_scale (currentScale : Z) (cpu mem : float64) (opts : scaleOptions) :
  strategy opts = "efficiency"%string ->
  0 <= currentScale ->
  3 * currentScale < 2 ^ 53 ->
  decideScale currentScale cpu mem opts
  = (if gt cpu (mul (cpuThreshold opts) c1_2)
        || gt mem (mul (memThreshold opts) c1_2) then
       currentScale + 1
     else if lt cpu (cpuThreshold opts)
             || (lt mem (memThreshold opts) && (minReplicas opts <? currentScale)) then
       3 * currentScale / 4
     else currentScale)
  /\ decideScale currentScale cpu mem opts
     = calculateEfficiencyScale currentScale cpu mem opts
  /\ (gt cpu (mul (cpuThreshold opts) c1_2)
      || gt mem (mul (memThreshold opts) c1_2) = false ->
      lt cpu (cpuThreshold opts) = true ->
      decideScale currentScale cpu mem opts = 3 * currentScale / 4)
  /\ decideScale 4 (of_int 60) (of_int 80) (with_strategy "efficiency" default_options)
     = 3.
Proof.
  intros Hs Hc H3.
  rewrite (decideScale_efficiency currentScale cpu mem opts Hs).
  pose proof (efficiency_branches currentScale cpu mem opts Hc H3) as Heq.
  split; [exact Heq | split; [reflexivity | split; [| reflexivity]]].
  intros Hup Hcpu. rewrite Heq, Hup, Hcpu. reflexivity.
Qed.

Lemma C1_efficiency_scale_witness :
  strategy (with_strategy "efficiency" default_options) = "efficiency"%string
  /\ 0 <= 4 /\ 3 * 4 < 2 ^ 53
  /\ (gt (of_int 60) (mul (cpuThreshold (with_strategy "efficiency" default_options)) c1_2)
      || gt (of_int 80) (mul (memThreshold (with_strategy "efficiency" default_options)) c1_2)
      = false)
  /\ lt (of_int 60) (cpuThreshold (with_strategy "efficiency" default_options)) = true
  /\ decideScale 4 (of_int 60) (of_int 80) (with_strategy "efficiency" default_options)
     = 3 * 4 / 4.
Proof.
  assert (Hs : strategy (with_strategy "efficiency" default_options)
               = "efficiency"%string) by reflexivity.
  assert (H0 : 0 <= 4) by lia.
  assert (H3 : 3 * 4 < 2 ^ 53) by lia.
  assert (Hup : gt (of_int 60)
                  (mul (cpuThreshold (with_strategy "efficiency" default_options)) c1_2)
                || gt (of_int 80)
                     (mul (memThreshold (with_strategy "efficiency" default_options)) c1_2)
                = false) by reflexivity.
  assert (Hcpu : lt (of_int 60) (cpuThreshold (with_strategy "efficiency" default_options))
                 = true) by reflexivity.
  split; [exact Hs | split; [exact H0 | split; [exact H3 | split; [exact Hup |]]]].
  split; [exact Hcpu |].
  exact (proj1 (proj2 (proj2 (C1_efficiency_scale 4 (of_int 60) (of_int 80)
                                (with_strategy "efficiency" default_options) Hs H0 H3)))
           Hup Hcpu).
Defined.

(** ** Outside that domain

    The conversion discards the fraction, so below zero it rounds up; and
    a product that needs more than 53 bits is rounded to the nearest even
    double before it is converted. *)

Lemma performance_negative_scale :
  calculatePerformanceScale (-1) (of_int 90) (of_int 50) default_options = -1
  /\ 3 * -1 / 2 = -2.
Proof. split; reflexivity. Qed.

Lemma performance_beyond_53_bits :
  calculatePerformanceScale 3002399751580333 (of_int 90) (of_int 50) default_options
  = 4503599627370500
  /\ 3 * 3002399751580333 / 2 = 4503599627370499.
Proof. split; vm_compute; reflexivity. Qed.

Lemma balanced_wraps_at_max_int :
  calculateBalancedScale GoInt.max_int (of_int 80) (of_int 50) default_options
  = GoInt.min_int.
Proof. vm_compute. reflexivity. Qed.

(** * The dispatch on the strategy name *)

Lemma decideScale_default (currentScale : Z) (cpu mem : float64) (opts : scaleOptions) :
  strategy opts <> "performance"%string -> strategy opts <> "efficiency"%string ->
  decideScale currentScale cpu mem opts = calculateBalancedScale currentScale cpu mem opts.
Proof.
  intros Hp He. unfold decideScale.
  destruct (String.eqb_spec (strategy opts) "performance"); [contradiction |].
  destruct (String.eqb_spec (strategy opts) "efficiency"); [contradiction |].
  reflexivity.
Qed.

(** * The loop body *)

Section Body.

Variable t : Tick.
Variable opts : scaleOptions.

Lemma scaleService_usage_error (n : string) (service : ServiceConfig) (p : Project)
    (cpu mem : float64) (err : error) :
  usage t n = (cpu, mem, Some err) ->
  scaleService t opts n service p = (p, [Printf (LUsageWarning n err)]).
Proof. intros Hu. unfold scaleService. rewrite Hu. reflexivity. Qed.

Lemma scaleService_sampled (n : string) (service : ServiceConfig) (p : Project)
    (cpu mem : float64) :
  usage t n = (cpu, mem, None) ->
  scaleService t opts n service p
  = if targetScale opts service cpu mem =? currentScaleOf service then
      (p, [Printf (LStatus n (currentScaleOf service) cpu mem)])
    else
      (setService p n (SetScale service (targetScale opts service cpu mem)),
       [Printf (LStatus n (currentScaleOf service) cpu mem);
        Printf (LScaling n (currentScaleOf service) (targetScale opts service cpu mem));
        BackendScale (setService p n (SetScale service (targetScale opts service cpu mem))) n;
        Printf (match scaleResult t n with
                | Some err => LScaleWarning n err
                | None => LScaled n (targetScale opts service cpu mem)
                end)]).
Proof. intros Hu. unfold scaleService. rewrite Hu. reflexivity. Qed.

Lemma scaleService_unchanged (n : string) (service : ServiceConfig) (p : Project)
    (cpu mem : float64) :
  usage t n = (cpu, mem, None) ->
  targetScale opts service cpu mem = currentScaleOf service ->
  scaleService t opts n service p
  = (p, [Printf (LStatus n (currentScaleOf service) cpu mem)]).
Proof.
  intros Hu Heq. rewrite (scaleService_sampled n service p cpu mem Hu), Heq, Z.eqb_refl.
  reflexivity.
Qed.

Lemma scaleService_changed (n : string) (service : ServiceConfig) (p : Project)
    (cpu mem : float64) :
  usage t n = (cpu, mem, None) ->
  targetScale opts service cpu mem <> currentScaleOf service ->
  scaleService t opts n service p
  = (setService p n (SetScale service (targetScale opts service cpu mem)),
     [Printf (LStatus n (currentScaleOf service) cpu mem);
      Printf (LScaling n (currentScaleOf service) (targetScale opts service cpu mem));
      BackendScale (setService p n (SetScale service (targetScale opts service cpu mem))) n;
      Printf (match scaleResult t n with
              | Some err => LScaleWarning n err
              | None => LScaled n (targetScale opts service cpu mem)
              end)]).
Proof.
  intros Hu Hne. rewrite (scaleService_sampled n service p cpu mem Hu).
  destruct (Z.eqb_spec (targetScale opts service cpu mem) (currentScaleOf service));
    [contradiction | reflexivity].
Qed.

(** The body for one service leaves the entries of the others alone and
    calls the backend for no other service. *)
Lemma scaleService_other (n n' : string) (service : ServiceConfig) (p : Project) :
  n' <> n ->
  Services (fst (scaleService t opts n' service p)) !! n = Services p !! n.
Proof.
  intros Hne. unfold scaleService.
  destruct (usage t n') as [[cpu mem] [err |]]; [reflexivity |].
  destruct (_ =? _); [reflexivity |].
  cbn. apply lookup_insert_ne. exact Hne.
Qed.

Lemma scaleService_calls_other (n n' : string) (service : ServiceConfig) (p : Project) :
  n' <> n -> scaleCalls n (snd (scaleService t opts n' service p)) = [].
Proof.
  intros Hne. unfold scaleService, scaleCalls.
  destruct (usage t n') as [[cpu mem] [err |]]; [reflexivity |].
  destruct (_ =? _); [reflexivity |].
  cbn. destruct (String.eqb_spec n' n); [contradiction | reflexivity].
Qed.

Lemma withProject_same (st : State) : withProject st (project st) = st.
Proof. destruct st. reflexivity. Qed.

Lemma rangeServices_cons_some (n : string) (rest : list string) (st : State)
    (service : ServiceConfig) :
  servicesMap st !! n = Some service ->
  rangeServices t opts (n :: rest) st
  = (fst (rangeServices t opts rest
            (withProject st (fst (scaleService t opts n service (project st))))),
     snd (scaleService t opts n service (project st))
     ++ snd (rangeServices t opts rest
               (withProject st (fst (scaleService t opts n service (project st)))))).
Proof.
  intros Hs. cbn [rangeServices]. rewrite Hs.
  destruct (scaleService t opts n service (project st)) as [p' evs].
  cbn [fst snd].
  destruct (rangeServices t opts rest (withProject st p')) as [st' evs'].
  reflexivity.
Qed.

Lemma rangeServices_cons_none (n : string) (rest : list string) (st : State) :
  servicesMap st !! n = None ->
  rangeServices t opts (n :: rest) st = rangeServices t opts rest st.
Proof. intros Hs. cbn [rangeServices]. rewrite Hs. reflexivity. Qed.

Lemma rangeServices_app (l1 l2 : list string) (st : State) :
  rangeServices t opts (l1 ++ l2) st
  = (fst (rangeServices t opts l2 (fst (rangeServices t opts l1 st))),
     snd (rangeServices t opts l1 st)
     ++ snd (rangeServices t opts l2 (fst (rangeServices t opts l1 st)))).
Proof.
  revert st. induction l1 as [| n l1 IH]; intros st.
  - cbn. destruct (rangeServices t opts l2 st). reflexivity.
  - rewrite <- app_comm_cons.
    destruct (servicesMap st !! n) as [service |] eqn:Hs.
    + rewrite !(rangeServices_cons_some n _ st service Hs), IH.
      cbn [fst snd]. rewrite app_assoc. reflexivity.
    + rewrite !(rangeServices_cons_none n _ st Hs). apply IH.
Qed.

(** What the entry of [n] in the map ranged over looks like after the
    body ran for another service. *)
Lemma servicesMap_other (n n' : string) (service : ServiceConfig) (st : State) :
  n' <> n ->
  servicesMap (withProject st (fst (scaleService t opts n' service (project st)))) !! n
  = servicesMap st !! n.
Proof.
  intros Hne. unfold servicesMap, withProject. cbn [services project].
  destruct (services st); [| reflexivity].
  apply scaleService_other, Hne.
Qed.

End Body.

(** * One tick *)

Section OneTick.

Variable t : Tick.
Variable opts : scaleOptions.

Lemma scaleCalls_app (n : string) (l1 l2 : list Event) :
  scaleCalls n (l1 ++ l2) = scaleCalls n l1 ++ scaleCalls n l2.
Proof. apply List.filter_app. Qed.

(** A service the range does not visit keeps its entries and is not
    scaled. *)
Lemma rangeServices_unvisited (n : string) (names : list string) (st : State) :
  n ∉ names ->
  Services (project (fst (rangeServices t opts names st))) !! n = Services (project st) !! n
  /\ servicesMap (fst (rangeServices t opts names st)) !! n = servicesMap st !! n
  /\ scaleCalls n (snd (rangeServices t opts names st)) = [].
Proof.
  revert st. induction names as [| n' rest IH]; intros st Hnot.
  - cbn. auto.
  - apply not_elem_of_cons in Hnot as [Hne Hrest].
    destruct (servicesMap st !! n') as [service |] eqn:Hs.
    + rewrite (rangeServices_cons_some t opts n' rest st service Hs). cbn [fst snd].
      destruct (IH (withProject st (fst (scaleService t opts n' service (project st)))) Hrest)
        as (Hp & Hm & Hc).
      rewrite Hp, Hm, scaleCalls_app, Hc, scaleService_calls_other by congruence.
      rewrite servicesMap_other by congruence.
      split; [| split; reflexivity].
      cbn. apply scaleService_other. congruence.
    + rewrite (rangeServices_cons_none t opts n' rest st Hs). apply IH, Hrest.
Qed.

(** A service for which the body changes nothing and calls nothing keeps
    its entries through the whole range, however often it is visited. *)
Lemma rangeServices_quiet (n : string) (service : ServiceConfig) (evs0 : list Event)
    (names : list string) (st : State) :
  servicesMap st !! n = Some service ->
  (forall p, scaleService t opts n service p = (p, evs0)) ->
  scaleCalls n evs0 = [] ->
  Services (project (fst (rangeServices t opts names st))) !! n = Services (project st) !! n
  /\ servicesMap (fst (rangeServices t opts names st)) !! n = Some service
  /\ scaleCalls n (snd (rangeServices t opts names st)) = [].
Proof.
  intros Hs Hquiet Hcalls. revert st Hs.
  induction names as [| n' rest IH]; intros st Hs.
  - cbn. auto.
  - destruct (servicesMap st !! n') as [service' |] eqn:Hs'.
    + rewrite (rangeServices_cons_some t opts n' rest st service' Hs'). cbn [fst snd].
      destruct (decide (n' = n)) as [-> | Hne].
      * assert (service' = service) as -> by congruence.
        rewrite Hquiet. cbn [fst snd]. rewrite withProject_same, scaleCalls_app, Hcalls.
        apply IH, Hs.
      * assert (Hs1 : servicesMap
                  (withProject st (fst (scaleService t opts n' service' (project st)))) !! n
                = Some service) by (rewrite servicesMap_other; assumption).
        destruct (IH _ Hs1) as (Hp & Hm & Hc).
        rewrite Hp, Hm, scaleCalls_app, Hc, scaleService_calls_other by assumption.
        split; [| split; reflexivity].
        cbn. apply scaleService_other, Hne.
    + rewrite (rangeServices_cons_none t opts n' rest st Hs'). apply IH, Hs.
Qed.

(** A service whose decision differs from its scale: after the range has
    visited it (once), [project.Services] holds the new scale, and the
    backend was called for it exactly once, with that project. *)
Lemma rangeServices_changed (n : string) (service : ServiceConfig) (cpu mem : float64)
    (names : list string) (st : State) :
  servicesMap st !! n = Some service ->
  usage t n = (cpu, mem, None) ->
  targetScale opts service cpu mem <> currentScaleOf service ->
  NoDup names -> n ∈ names ->
  Services (project (fst (rangeServices t opts names st))) !! n
  = Some (SetScale service (targetScale opts service cpu mem))
  /\ exists p', scaleCalls n (snd (rangeServices t opts names st)) = [BackendScale p' n]
             /\ Services p' !! n = Some (SetScale service (targetScale opts service cpu mem)).
Proof.
  intros Hs Hu Hne Hnd Hin. revert st Hs Hnd Hin.
  induction names as [| n' rest IH]; intros st Hs Hnd Hin.
  - apply elem_of_nil in Hin. contradiction.
  - apply NoDup_cons in Hnd as [Hfresh Hnd].
    destruct (decide (n' = n)) as [-> | Hdiff].
    + rewrite (rangeServices_cons_some t opts n rest st service Hs). cbn [fst snd].
      rewrite (scaleService_changed t opts n service (project st) cpu mem Hu Hne).
      cbn [fst snd].
      destruct (rangeServices_unvisited n rest
                  (withProject st (setService (project st) n
                     (SetScale service (targetScale opts service cpu mem)))) Hfresh)
        as (Hp & _ & Hc).
      rewrite Hp, scaleCalls_app, Hc. cbn.
      rewrite String.eqb_refl, lookup_insert_eq. split; [reflexivity |].
      eexists. split; [reflexivity |]. cbn. apply lookup_insert_eq.
    + apply elem_of_cons in Hin as [Heq | Hin]; [congruence |].
      destruct (servicesMap st !! n') as [service' |] eqn:Hs'.
      * rewrite (rangeServices_cons_some t opts n' rest st service' Hs'). cbn [fst snd].
        assert (Hs1 : servicesMap
                  (withProject st (fst (scaleService t opts n' service' (project st)))) !! n
                = Some service) by (rewrite servicesMap_other; assumption).
        destruct (IH _ Hs1 Hnd Hin) as (Hp & p' & Hc & Hp').
        rewrite Hp, scaleCalls_app, Hc, scaleService_calls_other by assumption.
        split; [reflexivity |]. exists p'. split; [reflexivity | exact Hp'].
      * rewrite (rangeServices_cons_none t opts n' rest st Hs'). apply IH; assumption.
Qed.

(** The map ranged over is written only when it is the project's own. *)
Lemma rangeServices_services (names : list string) (st : State) :
  services (fst (rangeServices t opts names st)) = services st.
Proof.
  revert st. induction names as [| n rest IH]; intros st; [reflexivity |].
  destruct (servicesMap st !! n) as [service |] eqn:Hs.
  - rewrite (rangeServices_cons_some t opts n rest st service Hs). cbn [fst].
    rewrite IH. reflexivity.
  - rewrite (rangeServices_cons_none t opts n rest st Hs). apply IH.
Qed.

Lemma checkAndScale_unfold (st : State) :
  checkAndScale t opts st
  = (fst (rangeServices t opts (order t) st), snd (rangeServices t opts (order t) st), None).
Proof. unfold checkAndScale. destruct (rangeServices t opts (order t) st). reflexivity. Qed.

End OneTick.

(** * The replica bounds *)

Lemma applyScaleLimits_min_max (newScale : Z) (opts : scaleOptions) :
  applyScaleLimits newScale opts
  = Z.min (maxReplicas opts) (Z.max (minReplicas opts) newScale).
Proof.
  unfold applyScaleLimits.
  destruct (Z.ltb_spec newScale (minReplicas opts));
    destruct (Z.ltb_spec (maxReplicas opts) (minReplicas opts));
    destruct (Z.ltb_spec (maxReplicas opts) newScale); lia.
Qed.

Lemma applyScaleLimits_max_min (newScale : Z) (opts : scaleOptions) :
  minReplicas opts <= maxReplicas opts ->
  applyScaleLimits newScale opts
  = Z.max (minReplicas opts) (Z.min (maxReplicas opts) newScale).
Proof. intros Hle. rewrite applyScaleLimits_min_max. lia. Qed.


Lemma applyScaleLimits_inBounds (newScale : Z) (opts : scaleOptions) :
  minReplicas opts <= maxReplicas opts ->
  inBounds opts (applyScaleLimits newScale opts).
Proof. intros Hle. unfold inBounds. rewrite applyScaleLimits_min_max. lia. Qed.

Section Bounds.

Variable t : Tick.
Variable opts : scaleOptions.
Variable n : string.
Hypothesis bounds_ordered : minReplicas opts <= maxReplicas opts.

Lemma recordedScale_set (p : Project) (service : ServiceConfig) (z : Z) :
  recordedScale (setService p n (SetScale service z)) n = Some z.
Proof. unfold recordedScale. cbn. rewrite lookup_insert_eq. reflexivity. Qed.

Lemma recordedScale_other (n' : string) (service : ServiceConfig) (p : Project) :
  n' <> n ->
  recordedScale (fst (scaleService t opts n' service p)) n = recordedScale p n.
Proof. intros Hne. unfold recordedScale. rewrite scaleService_other by exact Hne. reflexivity. Qed.

(** One run of the body, for any service [n']: the invariant of [n] is
    kept, a scale within the bounds stays within them, and if the body
    ran for [n] itself and obtained a sample, the scale recorded for [n]
    is within the bounds afterwards. *)
Lemma visit_step (n' : string) (service' : ServiceConfig) (st : State) :
  tracked opts n st ->
  servicesMap st !! n' = Some service' ->
  tracked opts n (withProject st (fst (scaleService t opts n' service' (project st))))
  /\ (scaleWithin opts n st ->
      scaleWithin opts n (withProject st (fst (scaleService t opts n' service' (project st)))))
  /\ (n' = n -> snd (usage t n) = None ->
      scaleWithin opts n (withProject st (fst (scaleService t opts n' service' (project st))))).
Proof.
  intros (service & z & Hs & Hrec & Hz) Hs'.
  destruct (decide (n' = n)) as [-> | Hne].
  - assert (service' = service) as -> by congruence.
    destruct (usage t n) as [[cpu mem] [err |]] eqn:Hu.
    + rewrite (scaleService_usage_error t opts n service (project st) cpu mem err Hu).
      cbn [fst]. rewrite withProject_same.
      split; [exists service, z; auto | split; [auto | intros _ Hcontra; discriminate]].
    + pose proof (applyScaleLimits_inBounds
                    (decideScale (currentScaleOf service) cpu mem opts) opts bounds_ordered)
        as Hin. fold (targetScale opts service cpu mem) in Hin.
      destruct (Z.eq_dec (targetScale opts service cpu mem) (currentScaleOf service))
        as [Heq | Hdiff].
      * rewrite (scaleService_unchanged t opts n service (project st) cpu mem Hu Heq).
        cbn [fst]. rewrite withProject_same.
        split; [exists service, z; auto | split; [auto |]].
        intros _ _. exists z. split; [exact Hrec |].
        destruct Hz as [-> | Hz]; [rewrite <- Heq |]; assumption.
      * rewrite (scaleService_changed t opts n service (project st) cpu mem Hu Hdiff).
        cbn [fst].
        assert (Hw : scaleWithin opts n
                  (withProject st (setService (project st) n
                     (SetScale service (targetScale opts service cpu mem))))).
        { exists (targetScale opts service cpu mem). split; [| exact Hin].
          cbn. apply recordedScale_set. }
        split; [| split; intros; exact Hw].
        unfold tracked, servicesMap in *. cbn [withProject services project].
        destruct (services st) as [| m].
        -- exists (SetScale service (targetScale opts service cpu mem)),
             (targetScale opts service cpu mem).
           split; [cbn; apply lookup_insert_eq |].
           split; [apply recordedScale_set | left; reflexivity].
        -- exists service, (targetScale opts service cpu mem).
           split; [exact Hs |]. split; [apply recordedScale_set | right; exact Hin].
  - assert (Hs1 : servicesMap
              (withProject st (fst (scaleService t opts n' service' (project st)))) !! n
            = Some service) by (rewrite servicesMap_other; assumption).
    assert (Hrec1 : recordedScale
              (project (withProject st (fst (scaleService t opts n' service' (project st))))) n
            = Some z) by (cbn [withProject project]; rewrite recordedScale_other; assumption).
    split; [exists service, z; auto | split; [| congruence]].
    intros (z' & Hrec' & Hin'). exists z'.
    assert (z' = z) as -> by congruence. auto.
Qed.

Lemma rangeServices_tracked (names : list string) (st : State) :
  tracked opts n st ->
  tracked opts n (fst (rangeServices t opts names st))
  /\ (scaleWithin opts n st -> scaleWithin opts n (fst (rangeServices t opts names st))).
Proof.
  revert st. induction names as [| n' rest IH]; intros st Htr; [cbn; auto |].
  destruct (servicesMap st !! n') as [service' |] eqn:Hs'.
  - rewrite (rangeServices_cons_some t opts n' rest st service' Hs'). cbn [fst].
    destruct (visit_step n' service' st Htr Hs') as (Htr1 & Hkeep & _).
    destruct (IH _ Htr1) as (Htr2 & Hkeep2). auto.
  - rewrite (rangeServices_cons_none t opts n' rest st Hs'). apply IH, Htr.
Qed.

(** After a tick that visited [n] and obtained its sample, the scale
    recorded for [n] is within the bounds. *)
Lemma rangeServices_within (names : list string) (st : State) :
  tracked opts n st -> n ∈ names -> snd (usage t n) = None ->
  scaleWithin opts n (fst (rangeServices t opts names st)).
Proof.
  intros Htr Hin Hu. revert st Htr Hin.
  induction names as [| n' rest IH]; intros st Htr Hin.
  - apply elem_of_nil in Hin. contradiction.
  - destruct (servicesMap st !! n') as [service' |] eqn:Hs'.
    + rewrite (rangeServices_cons_some t opts n' rest st service' Hs'). cbn [fst].
      destruct (visit_step n' service' st Htr Hs') as (Htr1 & _ & Hvisit).
      destruct (decide (n' = n)) as [Heq | Hne].
      * apply (rangeServices_tracked rest _ Htr1), Hvisit; assumption.
      * apply elem_of_cons in Hin as [Heq | Hin]; [congruence |].
        apply IH; assumption.
    + rewrite (rangeServices_cons_none t opts n' rest st Hs').
      apply elem_of_cons in Hin as [Heq | Hin].
      * subst n'. destruct Htr as (service & z & Hs & _). congruence.
      * apply IH; assumption.
Qed.

End Bounds.

(** * The outer loop *)

Lemma filterServices_lookup (p : Project) (names : list string) (n : string)
    (service : ServiceConfig) :
  filterServices p names !! n = Some service -> Services p !! n = Some service.
Proof.
  unfold filterServices.
  assert (Hgen : forall acc : gmap string ServiceConfig,
             (forall s, acc !! n = Some s -> Services p !! n = Some s) ->
             forall s,
               fold_left
                 (fun filtered serviceName =>
                    match Services p !! serviceName with
                    | Some service => <[serviceName := service]> filtered
                    | None => filtered
                    end) names acc !! n = Some s ->
               Services p !! n = Some s).
  { induction names as [| n' rest IH]; intros acc Hacc s; cbn [fold_left]; [apply Hacc |].
    apply IH. intros s'.
    destruct (Services p !! n') as [service' |] eqn:Hp; [| apply Hacc].
    destruct (decide (n' = n)) as [-> | Hne].
    - rewrite lookup_insert_eq. congruence.
    - rewrite lookup_insert_ne by exact Hne. apply Hacc. }
  apply Hgen. intros s Hs. rewrite lookup_empty in Hs. discriminate.
Qed.

Lemma initialState_tracked (opts : scaleOptions) (p : Project) (names : list string)
    (n : string) :
  is_Some (servicesMap (initialState p names) !! n) ->
  tracked opts n (initialState p names).
Proof.
  intros [service Hs]. exists service, (currentScaleOf service).
  split; [exact Hs |]. split; [| left; reflexivity].
  unfold recordedScale. cbn [initialState project].
  assert (Hp : Services p !! n = Some service).
  { destruct names as [| n0 rest]; [exact Hs |].
    apply (filterServices_lookup p (n0 :: rest)). exact Hs. }
  rewrite Hp. reflexivity.
Qed.

Lemma autoScaleLoop_cons (opts : scaleOptions) (t : Tick) (rest : list Tick) (st : State) :
  autoScaleLoop opts (t :: rest) st
  = (fst (autoScaleLoop opts rest (fst (rangeServices t opts (order t) st))),
     snd (rangeServices t opts (order t) st)
     ++ Sleep (interval opts)
     :: snd (autoScaleLoop opts rest (fst (rangeServices t opts (order t) st)))).
Proof.
  cbn [autoScaleLoop]. rewrite checkAndScale_unfold.
  destruct (autoScaleLoop opts rest (fst (rangeServices t opts (order t) st))).
  reflexivity.
Qed.




Lemma autoScaleLoop_tracked (opts : scaleOptions) (n : string) (ticks : list Tick)
    (st : State) :
  minReplicas opts <= maxReplicas opts ->
  tracked opts n st ->
  tracked opts n (fst (autoScaleLoop opts ticks st))
  /\ (scaleWithin opts n st -> scaleWithin opts n (fst (autoScaleLoop opts ticks st))).
Proof.
  intros Hle. revert st. induction ticks as [| t rest IH]; intros st Htr; [cbn; auto |].
  rewrite autoScaleLoop_cons. cbn [fst].
  destruct (rangeServices_tracked t opts n Hle (order t) st Htr) as (Htr1 & Hkeep1).
  destruct (IH _ Htr1) as (Htr2 & Hkeep2). auto.
Qed.

(** The scale recorded for a monitored service is within the bounds after
    the first tick that sampled it, and after every later tick. *)
Lemma autoScaleLoop_within (opts : scaleOptions) (n : string) (t : Tick)
    (rest : list Tick) (st : State) :
  minReplicas opts <= maxReplicas opts ->
  tracked opts n st -> n ∈ order t -> snd (usage t n) = None ->
  scaleWithin opts n (fst (autoScaleLoop opts (t :: rest) st)).
Proof.
  intros Hle Htr Hin Hu. rewrite autoScaleLoop_cons. cbn [fst].
  destruct (rangeServices_tracked t opts n Hle (order t) st Htr) as (Htr1 & _).
  apply (autoScaleLoop_tracked opts n rest _ Hle Htr1).
  apply rangeServices_within; assumption.
Qed.

Lemma shippedTick_samples (names : list string) (draws : string -> float64 * float64)
    (results : string -> option error) (n : string) :
  snd (usage (shippedTick names draws results) n) = None.
Proof. reflexivity. Qed.

(** * Options that decide alike scale alike *)

Lemma scaleService_ext (t : Tick) (opts opts' : scaleOptions) (n : string)
    (service : ServiceConfig) (p : Project) :
  (forall cpu mem, targetScale opts service cpu mem = targetScale opts' service cpu mem) ->
  scaleService t opts n service p = scaleService t opts' n service p.
Proof.
  intros Hext. unfold scaleService.
  destruct (usage t n) as [[cpu mem] [err |]]; [reflexivity |].
  rewrite Hext. reflexivity.
Qed.

Lemma rangeServices_ext (t : Tick) (opts opts' : scaleOptions) (names : list string)
    (st : State) :
  (forall service cpu mem,
      targetScale opts service cpu mem = targetScale opts' service cpu mem) ->
  rangeServices t opts names st = rangeServices t opts' names st.
Proof.
  intros Hext. revert st. induction names as [| n rest IH]; intros st; [reflexivity |].
  cbn [rangeServices]. destruct (servicesMap st !! n) as [service |]; [| apply IH].
  rewrite (scaleService_ext t opts opts' n service (project st) (Hext service)).
  destruct (scaleService t opts' n service (project st)) as [p' evs].
  rewrite IH. reflexivity.
Qed.

Lemma targetScale_default (opts : scaleOptions) (service : ServiceConfig)
    (cpu mem : float64) :
  strategy opts <> "performance"%string -> strategy opts <> "efficiency"%string ->
  targetScale opts service cpu mem
  = targetScale (with_strategy "balanced" opts) service cpu mem.
Proof.
  intros Hp He. unfold targetScale.
  rewrite (decideScale_default _ cpu mem opts Hp He).
  rewrite (decideScale_default _ cpu mem (with_strategy "balanced" opts))
    by (cbn; discriminate).
  reflexivity.
Qed.

(** * The claims about the control loop *)

(** The events of the body at the first visit of a service are part of
    the events of the tick. *)
Lemma rangeServices_body (t : Tick) (opts : scaleOptions) (n : string)
    (service : ServiceConfig) (names : list string) (st : State) :
  servicesMap st !! n = Some service -> n ∈ names ->
  exists p1, forall e, In e (snd (scaleService t opts n service p1)) ->
                       In e (snd (rangeServices t opts names st)).
Proof.
  revert st. induction names as [| n' rest IH]; intros st Hs Hin.
  - apply elem_of_nil in Hin. contradiction.
  - destruct (decide (n' = n)) as [-> | Hne].
    + rewrite (rangeServices_cons_some t opts n rest st service Hs). cbn [snd].
      exists (project st). intros e He. apply in_or_app. left. exact He.
    + apply elem_of_cons in Hin as [Heq | Hin]; [congruence |].
      destruct (servicesMap st !! n') as [service' |] eqn:Hs'.
      * rewrite (rangeServices_cons_some t opts n' rest st service' Hs'). cbn [snd].
        assert (Hs1 : servicesMap
                  (withProject st (fst (scaleService t opts n' service' (project st)))) !! n
                = Some service) by (rewrite servicesMap_other; assumption).
        destruct (IH _ Hs1 Hin) as (p1 & Hp1).
        exists p1. intros e He. apply in_or_app. right. apply Hp1, He.
      * rewrite (rangeServices_cons_none t opts n' rest st Hs'). apply IH; assumption.
Qed.

(** C9. The dispatch on the strategy name has a default branch and no
    error branch: for every name other than "performance" and
    "efficiency", known or not, every decision is the one of the balanced
    strategy, and a whole tick runs as it does under "balanced". *)
Theorem C9_unknown_strategy_is_balanced (opts : scaleOptions) :
  strategy opts <> "performance"%string ->
  strategy opts <> "efficiency"%string ->
  (forall currentScale cpu mem,
      decideScale currentScale cpu mem opts
      = calculateBalancedScale currentScale cpu mem opts)
  /\ (forall t st,
         checkAndScale t opts st = checkAndScale t (with_strategy "balanced" opts) st).
Proof.
  intros Hp He. split.
  - intros currentScale cpu mem. apply decideScale_default; assumption.
  - intros t st. unfold checkAndScale.
    rewrite (rangeServices_ext t opts (with_strategy "balanced" opts)); [reflexivity |].
    intros service cpu mem. apply targetScale_default; assumption.
Qed.

Lemma C9_unknown_strategy_is_balanced_witness :
  strategy (with_strategy "turbo" default_options) <> "performance"%string
  /\ strategy (with_strategy "turbo" default_options) <> "efficiency"%string
  /\ decideScale 2 (of_int 80) (of_int 50) (with_strategy "turbo" default_options)
     = calculateBalancedScale 2 (of_int 80) (of_int 50) (with_strategy "turbo" default_options).
Proof.
  assert (Hp : strategy (with_strategy "turbo" default_options) <> "performance"%string)
    by (cbn; discriminate).
  assert (He : strategy (with_strategy "turbo" default_options) <> "efficiency"%string)
    by (cbn; discriminate).
  split; [exact Hp | split; [exact He |]].
  exact (proj1 (C9_unknown_strategy_is_balanced (with_strategy "turbo" default_options) Hp He)
           2 (of_int 80) (of_int 50)).
Defined.

(** C10. A service whose [Scale] is nil is evaluated as if its scale were
    1: the loop body reads 1 as its current scale, prints 1, feeds 1 to
    the strategy and compares the clamped decision with 1; it behaves as
    the same service with [Scale] set to 1. *)
Theorem C10_nil_scale_is_one (t : Tick) (opts : scaleOptions) (n : string)
    (service : ServiceConfig) (p : Project) :
  Scale service = None ->
  currentScaleOf service = 1
  /\ scaleService t opts n service p = scaleService t opts n (SetScale service 1) p
  /\ (forall cpu mem,
         usage t n = (cpu, mem, None) ->
         scaleService t opts n service p
         = if applyScaleLimits (decideScale 1 cpu mem opts) opts =? 1 then
             (p, [Printf (LStatus n 1 cpu mem)])
           else
             (setService p n
                (SetScale service (applyScaleLimits (decideScale 1 cpu mem opts) opts)),
              [Printf (LStatus n 1 cpu mem);
               Printf (LScaling n 1 (applyScaleLimits (decideScale 1 cpu mem opts) opts));
               BackendScale
                 (setService p n
                    (SetScale service (applyScaleLimits (decideScale 1 cpu mem opts) opts)))
                 n;
               Printf (match scaleResult t n with
                       | Some err => LScaleWarning n err
                       | None =>
                           LScaled n (applyScaleLimits (decideScale 1 cpu mem opts) opts)
                       end)])).
Proof.
  intros Hnil.
  assert (Hone : currentScaleOf service = 1) by (unfold currentScaleOf; rewrite Hnil; reflexivity).
  split; [exact Hone | split].
  - unfold scaleService, targetScale. rewrite Hone. reflexivity.
  - intros cpu mem Hu.
    rewrite (scaleService_sampled t opts n service p cpu mem Hu).
    unfold targetScale. rewrite Hone. reflexivity.
Qed.

Lemma C10_nil_scale_is_one_witness :
  Scale {| Name := "db"; Scale := None |} = None
  /\ currentScaleOf {| Name := "db"; Scale := None |} = 1.
Proof.
  split; [reflexivity |].
  exact (proj1 (C10_nil_scale_is_one calmTick default_options "db"
                  {| Name := "db"; Scale := None |} demoProject eq_refl)).
Defined.

(** C7. When the clamped decision for a service equals its current scale,
    the tick issues no call to the backend for that service and leaves
    its recorded scale as it is: the body only prints the status line. *)
Theorem C7_unchanged_no_actuation (t : Tick) (opts : scaleOptions) (st : State)
    (n : string) (service : ServiceConfig) (cpu mem : float64) :
  servicesMap st !! n = Some service ->
  usage t n = (cpu, mem, None) ->
  applyScaleLimits (decideScale (currentScaleOf service) cpu mem opts) opts
  = currentScaleOf service ->
  (forall p, scaleService t opts n service p
             = (p, [Printf (LStatus n (currentScaleOf service) cpu mem)]))
  /\ scaleCalls n (snd (fst (checkAndScale t opts st))) = []
  /\ Services (project (fst (fst (checkAndScale t opts st)))) !! n
     = Services (project st) !! n
  /\ servicesMap (fst (fst (checkAndScale t opts st))) !! n = Some service.
Proof.
  intros Hs Hu Heq.
  assert (Hbody : forall p, scaleService t opts n service p
                            = (p, [Printf (LStatus n (currentScaleOf service) cpu mem)])).
  { intros p. apply scaleService_unchanged; assumption. }
  split; [exact Hbody |].
  rewrite checkAndScale_unfold. cbn [fst snd].
  destruct (rangeServices_quiet t opts n service _ (order t) st Hs Hbody eq_refl)
    as (Hp & Hm & Hc).
  auto.
Qed.

Lemma C7_unchanged_no_actuation_witness :
  servicesMap demoState !! "web"%string = Some (web 2)
  /\ usage calmTick "web" = (of_int 60, of_int 60, None)
  /\ applyScaleLimits
       (decideScale (currentScaleOf (web 2)) (of_int 60) (of_int 60) default_options)
       default_options = currentScaleOf (web 2)
  /\ scaleCalls "web" (snd (fst (checkAndScale calmTick default_options demoState))) = [].
Proof.
  assert (Hs : servicesMap demoState !! "web"%string = Some (web 2)) by reflexivity.
  assert (Hu : usage calmTick "web" = (of_int 60, of_int 60, None)) by reflexivity.
  assert (Heq : applyScaleLimits
                  (decideScale (currentScaleOf (web 2)) (of_int 60) (of_int 60)
                     default_options)
                  default_options = currentScaleOf (web 2)) by reflexivity.
  split; [exact Hs | split; [exact Hu | split; [exact Heq |]]].
  exact (proj1 (proj2 (C7_unchanged_no_actuation calmTick default_options demoState "web"
                         (web 2) (of_int 60) (of_int 60) Hs Hu Heq))).
Defined.

(** C8. When sampling fails for a service, the tick applies no decision
    and issues no call to the backend for it, prints a warning, evaluates
    the other services exactly as it would without it, and returns no
    error. *)
Theorem C8_sampling_failure_skips (t : Tick) (opts : scaleOptions) (st : State)
    (n : string) (service : ServiceConfig) (cpu mem : float64) (err : error) :
  servicesMap st !! n = Some service ->
  usage t n = (cpu, mem, Some err) ->
  (forall p, scaleService t opts n service p = (p, [Printf (LUsageWarning n err)]))
  /\ scaleCalls n (snd (fst (checkAndScale t opts st))) = []
  /\ Services (project (fst (fst (checkAndScale t opts st)))) !! n
     = Services (project st) !! n
  /\ (n ∈ order t ->
      In (Printf (LUsageWarning n err)) (snd (fst (checkAndScale t opts st))))
  /\ (forall before after,
         rangeServices t opts (before ++ n :: after) st
         = (fst (rangeServices t opts after (fst (rangeServices t opts before st))),
            snd (rangeServices t opts before st)
            ++ Printf (LUsageWarning n err)
            :: snd (rangeServices t opts after (fst (rangeServices t opts before st)))))
  /\ snd (checkAndScale t opts st) = None.
Proof.
  intros Hs Hu.
  assert (Hbody : forall p, scaleService t opts n service p
                            = (p, [Printf (LUsageWarning n err)])).
  { intros p. apply (scaleService_usage_error t opts n service p cpu mem err Hu). }
  split; [exact Hbody |].
  rewrite checkAndScale_unfold. cbn [fst snd].
  destruct (rangeServices_quiet t opts n service _ (order t) st Hs Hbody eq_refl)
    as (Hp & Hm & Hc).
  split; [exact Hc | split; [exact Hp | split; [| split; [| reflexivity]]]].
  - intros Hin. destruct (rangeServices_body t opts n service (order t) st Hs Hin)
      as (p1 & Hp1).
    apply Hp1. rewrite Hbody. left. reflexivity.
  - intros before after. rewrite rangeServices_app.
    destruct (rangeServices_quiet t opts n service _ before st Hs Hbody eq_refl)
      as (_ & Hm1 & _).
    rewrite (rangeServices_cons_some t opts n after _ service Hm1).
    rewrite Hbody. cbn [fst snd]. rewrite withProject_same. reflexivity.
Qed.

Lemma C8_sampling_failure_skips_witness :
  servicesMap demoState !! "web"%string = Some (web 2)
  /\ usage blindTick "web" = (S754_zero false, S754_zero false, Some "timeout"%string)
  /\ scaleCalls "web" (snd (fst (checkAndScale blindTick default_options demoState))) = [].
Proof.
  assert (Hs : servicesMap demoState !! "web"%string = Some (web 2)) by reflexivity.
  assert (Hu : usage blindTick "web"
               = (S754_zero false, S754_zero false, Some "timeout"%string)) by reflexivity.
  split; [exact Hs | split; [exact Hu |]].
  exact (proj1 (proj2 (C8_sampling_failure_skips blindTick default_options demoState "web"
                         (web 2) (S754_zero false) (S754_zero false) "timeout" Hs Hu))).
Defined.

(** C2, as claimed, fails.  [web] runs 2 replicas; the first tick decides
    3 and the backend call fails; the project then records 3, and the
    next tick evaluates from 3 (and goes on to 4), not from 2. *)
Lemma C2_failed_target_is_recorded :
  recordedScale (project demoState) "web" = Some 2
  /\ printed (snd (fst (checkAndScale (busyTick (Some "boom"%string))
                          default_options demoState)))
     = [LStatus "web" 2 (of_int 80) (of_int 50);
        LScaling "web" 2 3;
        LScaleWarning "web" "boom"]
  /\ recordedScale
       (project (fst (fst (checkAndScale (busyTick (Some "boom"%string))
                             default_options demoState)))) "web"
     = Some 3
  /\ printed (snd (autoScaleLoop default_options
                     [busyTick (Some "boom"%string); busyTick None] demoState))
     = [LStatus "web" 2 (of_int 80) (of_int 50);
        LScaling "web" 2 3;
        LScaleWarning "web" "boom";
        LStatus "web" 3 (of_int 80) (of_int 50);
        LScaling "web" 3 4;
        LScaled "web" 4;
        LStopped].
Proof. vm_compute. repeat split; reflexivity. Qed.

(** C2, amended.  When the call to the backend fails for a service, the
    target scale is already written to [project.Services] and stays
    there: the project records the failed target.  The backend was called
    once, with that project; a warning is printed and the tick returns no
    error.  When the loop ranges over [project.Services] itself, the next
    tick reads the failed target as the current scale; when it ranges
    over the copy made for the named services, that copy is not written
    and the next tick reads the same scale again. *)
Theorem C2_failed_actuation_keeps_target (t : Tick) (opts : scaleOptions) (st : State)
    (n : string) (service : ServiceConfig) (cpu mem : float64) (err : error) :
  servicesMap st !! n = Some service ->
  usage t n = (cpu, mem, None) ->
  targetScale opts service cpu mem <> currentScaleOf service ->
  scaleResult t n = Some err ->
  NoDup (order t) -> n ∈ order t ->
  recordedScale (project (fst (fst (checkAndScale t opts st)))) n
  = Some (targetScale opts service cpu mem)
  /\ (exists p', scaleCalls n (snd (fst (checkAndScale t opts st))) = [BackendScale p' n]
                 /\ recordedScale p' n = Some (targetScale opts service cpu mem))
  /\ In (Printf (LScaleWarning n err)) (snd (fst (checkAndScale t opts st)))
  /\ snd (checkAndScale t opts st) = None
  /\ (services st = SameAsProject ->
      currentScaleOf <$> servicesMap (fst (fst (checkAndScale t opts st))) !! n
      = Some (targetScale opts service cpu mem))
  /\ (forall m, services st = Copy m ->
                servicesMap (fst (fst (checkAndScale t opts st))) !! n = Some service).
Proof.
  intros Hs Hu Hne Herr Hnd Hin.
  rewrite checkAndScale_unfold. cbn [fst snd].
  destruct (rangeServices_changed t opts n service cpu mem (order t) st Hs Hu Hne Hnd Hin)
    as (Hrec & p' & Hcalls & Hp').
  assert (Hrec' : recordedScale (project (fst (rangeServices t opts (order t) st))) n
                  = Some (targetScale opts service cpu mem))
    by (unfold recordedScale; rewrite Hrec; reflexivity).
  split; [exact Hrec' |].
  split; [exists p'; split; [exact Hcalls | unfold recordedScale; rewrite Hp'; reflexivity] |].
  split.
  { destruct (rangeServices_body t opts n service (order t) st Hs Hin) as (p1 & Hp1).
    apply Hp1. rewrite (scaleService_changed t opts n service p1 cpu mem Hu Hne).
    cbn [snd]. rewrite Herr. cbn. auto. }
  split; [reflexivity |].
  pose proof (rangeServices_services t opts (order t) st) as Hsv.
  unfold servicesMap in *. rewrite Hsv.
  split.
  - intros Hsame. rewrite Hsame. exact Hrec'.
  - intros m Hcopy. rewrite Hcopy in *. exact Hs.
Qed.

Lemma C2_failed_actuation_keeps_target_witness :
  servicesMap demoState !! "web"%string = Some (web 2)
  /\ usage (busyTick (Some "boom"%string)) "web" = (of_int 80, of_int 50, None)
  /\ targetScale default_options (web 2) (of_int 80) (of_int 50) <> currentScaleOf (web 2)
  /\ scaleResult (busyTick (Some "boom"%string)) "web" = Some "boom"%string
  /\ NoDup (order (busyTick (Some "boom"%string)))
  /\ "web"%string ∈ order (busyTick (Some "boom"%string))
  /\ recordedScale
       (project (fst (fst (checkAndScale (busyTick (Some "boom"%string))
                             default_options demoState)))) "web"
     = Some (targetScale default_options (web 2) (of_int 80) (of_int 50)).
Proof.
  assert (Hs : servicesMap demoState !! "web"%string = Some (web 2)) by reflexivity.
  assert (Hu : usage (busyTick (Some "boom"%string)) "web" = (of_int 80, of_int 50, None))
    by reflexivity.
  assert (Hne : targetScale default_options (web 2) (of_int 80) (of_int 50)
                <> currentScaleOf (web 2)) by (vm_compute; discriminate).
  assert (Herr : scaleResult (busyTick (Some "boom"%string)) "web" = Some "boom"%string)
    by reflexivity.
  assert (Hnd : NoDup (order (busyTick (Some "boom"%string))))
    by (apply NoDup_singleton).
  assert (Hin : "web"%string ∈ order (busyTick (Some "boom"%string)))
    by (apply list_elem_of_singleton; reflexivity).
  split; [exact Hs | split; [exact Hu | split; [exact Hne | split; [exact Herr |]]]].
  split; [exact Hnd | split; [exact Hin |]].
  exact (proj1 (C2_failed_actuation_keeps_target (busyTick (Some "boom"%string))
                  default_options demoState "web" (web 2) (of_int 80) (of_int 50) "boom"
                  Hs Hu Hne Herr Hnd Hin)).
Defined.




(** C4, as claimed, fails.  With a minimum of 5 and a maximum of 3 the
    limits turn a decision of 4 into 3, whereas
    [max(minReplicas, min(maxReplicas, 4))] is 5. *)
Lemma C4_limits_inverted_bounds :
  applyScaleLimits 4 (with_replicas 5 3 default_options) = 3
  /\ Z.max (minReplicas (with_replicas 5 3 default_options))
       (Z.min (maxReplicas (with_replicas 5 3 default_options)) 4) = 5
  /\ applyScaleLimits 4 (with_replicas 5 3 default_options)
     <> Z.max (minReplicas (with_replicas 5 3 default_options))
          (Z.min (maxReplicas (with_replicas 5 3 default_options)) 4).
Proof. vm_compute. repeat split; discriminate. Qed.

(** C4, amended.  The limits equal
    [min(maxReplicas, max(minReplicas, desired))], which is
    [max(minReplicas, min(maxReplicas, desired))] whenever
    [minReplicas <= maxReplicas]; they are applied to every decision, the
    unchanged one included: the loop body compares and records nothing but
    the limited decision.  Hence, for every policy with
    [minReplicas <= maxReplicas], all [cpu], [mem] and every current
    scale, the limited decision lies in [[minReplicas, maxReplicas]]
    (15 with bounds 1 and 10 becomes 10), and the scale that
    [project.Services] records for a monitored service lies in
    [[minReplicas, maxReplicas]] after the first tick that sampled it and
    after every later tick; the sampler of the program never fails. *)
Theorem C4_scale_limits :
  (forall opts desired,
      applyScaleLimits desired opts
      = Z.min (maxReplicas opts) (Z.max (minReplicas opts) desired))
  /\ (forall opts desired,
         minReplicas opts <= maxReplicas opts ->
         applyScaleLimits desired opts
         = Z.max (minReplicas opts) (Z.min (maxReplicas opts) desired))
  /\ (forall t opts n service p cpu mem,
         usage t n = (cpu, mem, None) ->
         (applyScaleLimits (decideScale (currentScaleOf service) cpu mem opts) opts
          = currentScaleOf service
          /\ fst (scaleService t opts n service p) = p)
         \/ (applyScaleLimits (decideScale (currentScaleOf service) cpu mem opts) opts
             <> currentScaleOf service
             /\ recordedScale (fst (scaleService t opts n service p)) n
                = Some (applyScaleLimits
                          (decideScale (currentScaleOf service) cpu mem opts) opts)))
  /\ (forall opts currentScale cpu mem,
         minReplicas opts <= maxReplicas opts ->
         minReplicas opts
         <= applyScaleLimits (decideScale currentScale cpu mem opts) opts
         <= maxReplicas opts)
  /\ applyScaleLimits 15 default_options = 10
  /\ (forall opts p names t rest n,
         minReplicas opts <= maxReplicas opts ->
         is_Some (servicesMap (initialState p names) !! n) ->
         n ∈ order t ->
         snd (usage t n) = None ->
         exists recorded,
           recordedScale
             (project (fst (autoScaleLoop opts (t :: rest) (initialState p names)))) n
           = Some recorded
           /\ minReplicas opts <= recorded <= maxReplicas opts)
  /\ (forall names draws results n,
         snd (usage (shippedTick names draws results) n) = None).
Proof.
  split; [exact (fun opts desired => applyScaleLimits_min_max desired opts) |].
  split; [exact (fun opts desired => applyScaleLimits_max_min desired opts) |].
  split.
  { intros t opts n service p cpu mem Hu.
    fold (targetScale opts service cpu mem).
    destruct (Z.eq_dec (targetScale opts service cpu mem) (currentScaleOf service))
      as [Heq | Hne].
    - left. split; [exact Heq |].
      rewrite (scaleService_unchanged t opts n service p cpu mem Hu Heq). reflexivity.
    - right. split; [exact Hne |].
      rewrite (scaleService_changed t opts n service p cpu mem Hu Hne). cbn [fst].
      apply recordedScale_set. }
  split; [intros opts currentScale cpu mem Hle; apply applyScaleLimits_inBounds, Hle |].
  split; [reflexivity |].
  split; [| intros; reflexivity].
  intros opts p names t rest n Hle Hmon Hin Hu.
  apply (autoScaleLoop_within opts n t rest (initialState p names) Hle); try assumption.
  apply initialState_tracked, Hmon.
Qed.

Lemma C4_scale_limits_witness :
  minReplicas default_options <= maxReplicas default_options
  /\ is_Some (servicesMap (initialState demoProject ["web"%string]) !! "web"%string)
  /\ "web"%string ∈ order (shippedTick ["web"%string]
                             (fun _ => (of_int 0, of_int 0)) (fun _ => None))
  /\ snd (usage (shippedTick ["web"%string]
                   (fun _ => (of_int 0, of_int 0)) (fun _ => None)) "web") = None
  /\ exists recorded,
       recordedScale
         (project (fst (autoScaleLoop default_options
                          [shippedTick ["web"%string]
                             (fun _ => (of_int 0, of_int 0)) (fun _ => None)]
                          (initialState demoProject ["web"%string])))) "web"
       = Some recorded
       /\ minReplicas default_options <= recorded <= maxReplicas default_options.
Proof.
  assert (Hle : minReplicas default_options <= maxReplicas default_options)
    by (cbn; lia).
  assert (Hmon : is_Some (servicesMap (initialState demoProject ["web"%string])
                            !! "web"%string))
    by (exists (web 2); reflexivity).
  assert (Hin : "web"%string ∈ order (shippedTick ["web"%string]
                                        (fun _ => (of_int 0, of_int 0)) (fun _ => None)))
    by (apply list_elem_of_singleton; reflexivity).
  assert (Hu : snd (usage (shippedTick ["web"%string]
                             (fun _ => (of_int 0, of_int 0)) (fun _ => None)) "web") = None)
    by reflexivity.
  split; [exact Hle | split; [exact Hmon | split; [exact Hin | split; [exact Hu |]]]].
  exact (proj1 (proj2 (proj2 (proj2 (proj2 (proj2 C4_scale_limits)))))
           default_options demoProject ["web"%string]
           (shippedTick ["web"%string] (fun _ => (of_int 0, of_int 0)) (fun _ => None))
           [] "web" Hle Hmon Hin Hu).
Defined.

(** * Further properties of the strategies *)

Lemma lt_nan_r (x : float64) : lt x NaN = false.
Proof. destruct x; reflexivity. Qed.

Lemma gt_nan_r (x : float64) : gt x NaN = false.
Proof. reflexivity. Qed.

Lemma lt_nan_l (x : float64) : lt NaN x = false.
Proof. reflexivity. Qed.

Lemma gt_nan_l (x : float64) : gt NaN x = false.
Proof. destruct x; reflexivity. Qed.

(** X1. A sample whose CPU and memory readings are both NaN never moves
    the scale: every strategy, whatever the name and the thresholds,
    returns the current scale, so the tick can only pull the scale back
    within the limits. *)
Theorem X1_nan_sample_keeps_scale (opts : scaleOptions) :
  (forall currentScale,
      calculateBalancedScale currentScale NaN NaN opts = currentScale
      /\ calculatePerformanceScale currentScale NaN NaN opts = currentScale
      /\ calculateEfficiencyScale currentScale NaN NaN opts = currentScale
      /\ decideScale currentScale NaN NaN opts = currentScale)
  /\ (forall service,
         targetScale opts service NaN NaN = applyScaleLimits (currentScaleOf service) opts).
Proof.
  assert (Hall : forall currentScale,
             calculateBalancedScale currentScale NaN NaN opts = currentScale
             /\ calculatePerformanceScale currentScale NaN NaN opts = currentScale
             /\ calculateEfficiencyScale currentScale NaN NaN opts = currentScale).
  { intros c.
    unfold calculateBalancedScale, calculatePerformanceScale, calculateEfficiencyScale.
    rewrite !gt_nan_l, !lt_nan_l. cbn. auto. }
  assert (Hdec : forall currentScale, decideScale currentScale NaN NaN opts = currentScale).
  { intros c. destruct (Hall c) as (Hb & Hp & He). unfold decideScale.
    destruct (String.eqb _ _); [exact Hp |]. destruct (String.eqb _ _); assumption. }
  split.
  - intros c. destruct (Hall c) as (Hb & Hp & He). auto.
  - intros service. unfold targetScale. rewrite Hdec. reflexivity.
Qed.

Lemma mul_nan_l (x : float64) : mul NaN x = NaN.
Proof. reflexivity. Qed.

(** X2. With both thresholds NaN (the flags accept "NaN") no sample
    ever moves the scale: every strategy returns the current scale. *)
Theorem X2_nan_thresholds_never_scale (opts : scaleOptions) (currentScale : Z)
    (cpu mem : float64) :
  cpuThreshold opts = NaN ->
  memThreshold opts = NaN ->
  decideScale currentScale cpu mem opts = currentScale.
Proof.
  intros Hc Hm.
  unfold decideScale, calculateBalancedScale, calculatePerformanceScale,
    calculateEfficiencyScale.
  rewrite Hc, Hm, !mul_nan_l, !gt_nan_r, !lt_nan_r. cbn.
  destruct (String.eqb _ _); [reflexivity |]. destruct (String.eqb _ _); reflexivity.
Qed.

Lemma X2_nan_thresholds_never_scale_witness :
  cpuThreshold (with_thresholds NaN NaN default_options) = NaN
  /\ memThreshold (with_thresholds NaN NaN default_options) = NaN
  /\ decideScale 4 (of_int 99) (of_int 99) (with_thresholds NaN NaN default_options) = 4.
Proof.
  split; [reflexivity | split; [reflexivity |]].
  exact (X2_nan_thresholds_never_scale (with_thresholds NaN NaN default_options) 4
           (of_int 99) (of_int 99) eq_refl eq_refl).
Defined.

(** X3. The balanced strategy moves the scale by one at most, and from
    a scale at or above the minimum it never decides below the minimum. *)
Theorem X3_balanced_moves_one_step (currentScale : Z) (cpu mem : float64)
    (opts : scaleOptions) :
  GoInt.is_int currentScale ->
  GoInt.is_int (minReplicas opts) ->
  currentScale < GoInt.max_int ->
  currentScale - 1 <= calculateBalancedScale currentScale cpu mem opts <= currentScale + 1
  /\ (minReplicas opts <= currentScale ->
      minReplicas opts <= calculateBalancedScale currentScale cpu mem opts).
Proof.
  intros Hc Hmin Hmax. unfold calculateBalancedScale.
  destruct (gt cpu (cpuThreshold opts) || gt mem (memThreshold opts)).
  - rewrite add_one_exact by assumption. lia.
  - destruct (lt cpu (mul (cpuThreshold opts) c0_7)
              && lt mem (mul (memThreshold opts) c0_7)); cbn [andb]; [| lia].
    destruct (Z.ltb_spec (minReplicas opts) currentScale) as [Hlt | Hge]; [| lia].
    rewrite (sub_one_exact currentScale (minReplicas opts)) by assumption. lia.
Qed.

Lemma X3_balanced_moves_one_step_witness :
  GoInt.is_int 3 /\ GoInt.is_int (minReplicas default_options) /\ 3 < GoInt.max_int
  /\ 3 - 1 <= calculateBalancedScale 3 (of_int 40) (of_int 40) default_options <= 3 + 1.
Proof.
  assert (H3 : GoInt.is_int 3) by (unfold GoInt.is_int, GoInt.min_int, GoInt.max_int; lia).
  assert (H1 : GoInt.is_int (minReplicas default_options))
    by (unfold GoInt.is_int, GoInt.min_int, GoInt.max_int; simpl; lia).
  assert (Hm : 3 < GoInt.max_int) by (unfold GoInt.max_int; lia).
  split; [exact H3 | split; [exact H1 | split; [exact Hm |]]].
  exact (proj1 (X3_balanced_moves_one_step 3 (of_int 40) (of_int 40) default_options
                  H3 H1 Hm)).
Defined.

(** X4. Scaling up under the performance strategy never lowers the
    scale, and it leaves the scale where it is exactly for 0 and 1
    replica: [int(1 * 1.5)] is 1. *)
Theorem X4_performance_up_stalls_at_one (currentScale : Z) (cpu mem : float64)
    (opts : scaleOptions) :
  0 <= currentScale ->
  3 * currentScale < 2 ^ 53 ->
  gt cpu (cpuThreshold opts) || gt mem (memThreshold opts) = true ->
  currentScale <= calculatePerformanceScale currentScale cpu mem opts
  /\ (calculatePerformanceScale currentScale cpu mem opts = currentScale
      <-> currentScale <= 1).
Proof.
  intros Hc H3 Hup. unfold calculatePerformanceScale. rewrite Hup.
  rewrite to_int_mul_1_5 by assumption.
  pose proof (Z.div_mod (3 * currentScale) 2 ltac:(lia)) as Hdiv.
  pose proof (Z.mod_pos_bound (3 * currentScale) 2 ltac:(lia)) as Hmod.
  lia.
Qed.

Lemma X4_performance_up_stalls_at_one_witness :
  0 <= 1 /\ 3 * 1 < 2 ^ 53
  /\ gt (of_int 90) (cpuThreshold default_options)
     || gt (of_int 50) (memThreshold default_options) = true
  /\ 1 <= calculatePerformanceScale 1 (of_int 90) (of_int 50) default_options.
Proof.
  assert (H0 : 0 <= 1) by lia.
  assert (H3 : 3 * 1 < 2 ^ 53) by lia.
  assert (Hup : gt (of_int 90) (cpuThreshold default_options)
                || gt (of_int 50) (memThreshold default_options) = true) by reflexivity.
  split; [exact H0 | split; [exact H3 | split; [exact Hup |]]].
  exact (proj1 (X4_performance_up_stalls_at_one 1 (of_int 90) (of_int 50) default_options
                  H0 H3 Hup)).
Defined.

Lemma performance_from_one (cpu mem : float64) (opts : scaleOptions) :
  calculatePerformanceScale 1 cpu mem opts <= 1.
Proof.
  unfold calculatePerformanceScale.
  destruct (gt cpu (cpuThreshold opts) || gt mem (memThreshold opts)).
  - rewrite to_int_mul_1_5 by lia. reflexivity.
  - destruct (_ && _); [| lia]. vm_compute. discriminate.
Qed.

(** X5. Under the performance strategy a service that runs one replica
    is never scaled up, whatever its load: with a minimum of 1 at most,
    the limited decision for it is 1 at most. *)
Theorem X5_performance_never_leaves_one (opts : scaleOptions) (service : ServiceConfig)
    (cpu mem : float64) :
  strategy opts = "performance"%string ->
  currentScaleOf service = 1 ->
  minReplicas opts <= 1 ->
  targetScale opts service cpu mem <= 1.
Proof.
  intros Hs Hone Hmin.
  assert (Hd : decideScale 1 cpu mem opts = calculatePerformanceScale 1 cpu mem opts)
    by (unfold decideScale; rewrite Hs; reflexivity).
  unfold targetScale. rewrite Hone, Hd, applyScaleLimits_min_max.
  pose proof (performance_from_one cpu mem opts). lia.
Qed.

Lemma X5_performance_never_leaves_one_witness :
  strategy (with_strategy "performance" default_options) = "performance"%string
  /\ currentScaleOf (web 1) = 1
  /\ minReplicas (with_strategy "performance" default_options) <= 1
  /\ targetScale (with_strategy "performance" default_options) (web 1)
       (of_int 99) (of_int 99) <= 1.
Proof.
  assert (Hmin : minReplicas (with_strategy "performance" default_options) <= 1)
    by (cbn; lia).
  split; [reflexivity | split; [reflexivity | split; [exact Hmin |]]].
  exact (X5_performance_never_leaves_one (with_strategy "performance" default_options)
           (web 1) (of_int 99) (of_int 99) eq_refl eq_refl Hmin).
Defined.

(** X6. Whenever the efficiency strategy does not scale up, it never
    raises the scale; when it scales down it removes at least one replica
    from every running service and never goes below zero - but it may go
    below the minimum, which it does not look at on the CPU side. *)
Theorem X6_efficiency_down_shrinks (currentScale : Z) (cpu mem : float64)
    (opts : scaleOptions) :
  0 <= currentScale ->
  3 * currentScale < 2 ^ 53 ->
  gt cpu (mul (cpuThreshold opts) c1_2) || gt mem (mul (memThreshold opts) c1_2) = false ->
  0 <= calculateEfficiencyScale currentScale cpu mem opts <= currentScale
  /\ (lt cpu (cpuThreshold opts)
      || (lt mem (memThreshold opts) && (minReplicas opts <? currentScale)) = true ->
      0 < currentScale ->
      calculateEfficiencyScale currentScale cpu mem opts < currentScale).
Proof.
  intros Hc H3 Hup. unfold calculateEfficiencyScale. rewrite Hup.
  pose proof (Z.div_mod (3 * currentScale) 4 ltac:(lia)) as Hdiv.
  pose proof (Z.mod_pos_bound (3 * currentScale) 4 ltac:(lia)) as Hmod.
  destruct (lt cpu (cpuThreshold opts)
            || (lt mem (memThreshold opts) && (minReplicas opts <? currentScale))).
  - rewrite to_int_mul_0_75 by assumption. split; [lia | intros _ Hpos; lia].
  - split; [lia | discriminate].
Qed.

Lemma X6_efficiency_down_shrinks_witness :
  0 <= 1 /\ 3 * 1 < 2 ^ 53
  /\ gt (of_int 60) (mul (cpuThreshold default_options) c1_2)
     || gt (of_int 80) (mul (memThreshold default_options) c1_2) = false
  /\ 0 <= calculateEfficiencyScale 1 (of_int 60) (of_int 80) default_options <= 1.
Proof.
  assert (H0 : 0 <= 1) by lia.
  assert (H3 : 3 * 1 < 2 ^ 53) by lia.
  assert (Hup : gt (of_int 60) (mul (cpuThreshold default_options) c1_2)
                || gt (of_int 80) (mul (memThreshold default_options) c1_2) = false)
    by reflexivity.
  split; [exact H0 | split; [exact H3 | split; [exact Hup |]]].
  exact (proj1 (X6_efficiency_down_shrinks 1 (of_int 60) (of_int 80) default_options
                  H0 H3 Hup)).
Defined.

(** X7. The replica limits are idempotent and monotone, whatever the
    bounds; with [minReplicas <= maxReplicas] they leave a scale alone
    exactly when it lies within the bounds. *)
Theorem X7_limits_idempotent_monotone (opts : scaleOptions) :
  (forall n, applyScaleLimits (applyScaleLimits n opts) opts = applyScaleLimits n opts)
  /\ (forall n m, n <= m -> applyScaleLimits n opts <= applyScaleLimits m opts)
  /\ (minReplicas opts <= maxReplicas opts ->
      forall n, applyScaleLimits n opts = n <-> inBounds opts n).
Proof.
  split; [| split].
  - intros n. rewrite !applyScaleLimits_min_max. lia.
  - intros n m Hnm. rewrite !applyScaleLimits_min_max. lia.
  - intros Hle n. unfold inBounds. rewrite applyScaleLimits_min_max. lia.
Qed.

Lemma X7_limits_idempotent_monotone_witness :
  minReplicas default_options <= maxReplicas default_options
  /\ (applyScaleLimits 4 default_options = 4 <-> inBounds default_options 4).
Proof.
  assert (Hle : minReplicas default_options <= maxReplicas default_options) by (cbn; lia).
  split; [exact Hle |].
  exact (proj2 (proj2 (X7_limits_idempotent_monotone default_options)) Hle 4).
Defined.

(** * Further properties of a tick *)

Section TickFacts.

Variable t : Tick.
Variable opts : scaleOptions.

(** A service the loop does not monitor is skipped. *)
Lemma rangeServices_absent (n : string) (names : list string) (st : State) :
  servicesMap st !! n = None ->
  Services (project (fst (rangeServices t opts names st))) !! n = Services (project st) !! n
  /\ servicesMap (fst (rangeServices t opts names st)) !! n = None
  /\ scaleCalls n (snd (rangeServices t opts names st)) = [].
Proof.
  revert st. induction names as [| n' rest IH]; intros st Hn; [cbn; auto |].
  destruct (servicesMap st !! n') as [service' |] eqn:Hs'.
  - assert (Hne : n' <> n) by congruence.
    rewrite (rangeServices_cons_some t opts n' rest st service' Hs'). cbn [fst snd].
    assert (Hn1 : servicesMap
                (withProject st (fst (scaleService t opts n' service' (project st)))) !! n
              = None) by (rewrite servicesMap_other; assumption).
    destruct (IH _ Hn1) as (Hp & Hm & Hc).
    rewrite Hp, Hm, scaleCalls_app, Hc, scaleService_calls_other by assumption.
    split; [| split; reflexivity].
    cbn. apply scaleService_other, Hne.
  - rewrite (rangeServices_cons_none t opts n' rest st Hs'). apply IH, Hn.
Qed.

Lemma scaledService_none (n : string) (service : ServiceConfig) :
  scaledService t opts n service = None ->
  exists evs0, (forall p, scaleService t opts n service p = (p, evs0))
               /\ scaleCalls n evs0 = [].
Proof.
  unfold scaledService, scaleService.
  destruct (usage t n) as [[cpu mem] [err |]].
  - intros _. eexists. split; [intros p; reflexivity | reflexivity].
  - destruct (_ =? _); [| discriminate].
    intros _. eexists. split; [intros p; reflexivity | reflexivity].
Qed.

Lemma scaledService_some (n : string) (service service' : ServiceConfig) :
  scaledService t opts n service = Some service' ->
  exists cpu mem,
    usage t n = (cpu, mem, None)
    /\ targetScale opts service cpu mem <> currentScaleOf service
    /\ service' = SetScale service (targetScale opts service cpu mem).
Proof.
  unfold scaledService.
  destruct (usage t n) as [[cpu mem] [err |]]; [discriminate |].
  destruct (Z.eqb_spec (targetScale opts service cpu mem) (currentScaleOf service));
    [discriminate |].
  intros [= <-]. exists cpu, mem. auto.
Qed.

(** The entries of [project.Services] after a range over distinct names,
    in closed form. *)
Lemma rangeServices_lookup (names : list string) (st : State) (n : string) :
  NoDup names ->
  Services (project (fst (rangeServices t opts names st))) !! n
  = entryAfter t opts names st n.
Proof.
  intros Hnd. unfold entryAfter.
  destruct (decide (n ∈ names)) as [Hin | Hout];
    [| apply (rangeServices_unvisited t opts n names st Hout)].
  destruct (servicesMap st !! n) as [service |] eqn:Hs;
    [| apply (rangeServices_absent n names st Hs)].
  destruct (scaledService t opts n service) as [service' |] eqn:Hsc.
  - destruct (scaledService_some n service service' Hsc) as (cpu & mem & Hu & Hne & ->).
    apply (rangeServices_changed t opts n service cpu mem names st Hs Hu Hne Hnd Hin).
  - destruct (scaledService_none n service Hsc) as (evs0 & Hq & Hc).
    apply (rangeServices_quiet t opts n service evs0 names st Hs Hq Hc).
Qed.

Lemma scaleService_name (n : string) (service : ServiceConfig) (p : Project) :
  ProjectName (fst (scaleService t opts n service p)) = ProjectName p.
Proof.
  unfold scaleService.
  destruct (usage t n) as [[cpu mem] [err |]]; [reflexivity |].
  destruct (_ =? _); reflexivity.
Qed.

Lemma rangeServices_name (names : list string) (st : State) :
  ProjectName (project (fst (rangeServices t opts names st))) = ProjectName (project st).
Proof.
  revert st. induction names as [| n rest IH]; intros st; [reflexivity |].
  destruct (servicesMap st !! n) as [service |] eqn:Hs.
  - rewrite (rangeServices_cons_some t opts n rest st service Hs). cbn [fst].
    rewrite IH. cbn. apply scaleService_name.
  - rewrite (rangeServices_cons_none t opts n rest st Hs). apply IH.
Qed.

Lemma state_eq (st1 st2 : State) :
  ProjectName (project st1) = ProjectName (project st2) ->
  (forall n, Services (project st1) !! n = Services (project st2) !! n) ->
  services st1 = services st2 ->
  st1 = st2.
Proof.
  destruct st1 as [[name1 m1] sv1], st2 as [[name2 m2] sv2]. cbn.
  intros -> Hm ->. apply map_eq in Hm. subst. reflexivity.
Qed.



End TickFacts.

(** X8. The outcome of a tick does not depend on the order in which Go
    ranges over the map: two orders that visit the same services, each
    once, leave the same project and the same loop state behind. *)
Theorem X8_tick_order_irrelevant (t : Tick) (opts : scaleOptions) (st : State)
    (order1 order2 : list string) :
  NoDup order1 ->
  order1 ≡ₚ order2 ->
  fst (rangeServices t opts order1 st) = fst (rangeServices t opts order2 st).
Proof.
  intros Hnd1 Hperm.
  assert (Hnd2 : NoDup order2) by (rewrite <- Hperm; exact Hnd1).
  apply state_eq.
  - rewrite !rangeServices_name. reflexivity.
  - intros n. rewrite !rangeServices_lookup by assumption.
    unfold entryAfter.
    destruct (decide (n ∈ order1)) as [H1 | H1], (decide (n ∈ order2)) as [H2 | H2];
      try reflexivity.
    + rewrite Hperm in H1. contradiction.
    + rewrite <- Hperm in H2. contradiction.
  - rewrite !rangeServices_services. reflexivity.
Qed.

Lemma X8_tick_order_irrelevant_witness :
  NoDup ["web"; "db"]%string
  /\ ["web"; "db"]%string ≡ₚ ["db"; "web"]%string
  /\ fst (rangeServices calmTick default_options ["web"; "db"]%string demoState)
     = fst (rangeServices calmTick default_options ["db"; "web"]%string demoState).
Proof.
  assert (Hnd : NoDup ["web"; "db"]%string).
  { apply NoDup_cons. split; [| apply NoDup_singleton].
    intros Hin. apply list_elem_of_singleton in Hin. discriminate. }
  assert (Hperm : ["web"; "db"]%string ≡ₚ ["db"; "web"]%string) by apply perm_swap.
  split; [exact Hnd | split; [exact Hperm |]].
  exact (X8_tick_order_irrelevant calmTick default_options demoState
           ["web"; "db"]%string ["db"; "web"]%string Hnd Hperm).
Defined.

(** X9. After a tick over distinct names, the entry of a service in
    [project.Services] is the service with the limited decision as its
    scale if the tick visited it, the loop monitors it, its sample was
    obtained and the limited decision differs from its scale; in every
    other case the entry is what it was. *)
Theorem X9_tick_entries (t : Tick) (opts : scaleOptions) (st : State) (n : string) :
  NoDup (order t) ->
  Services (project (fst (fst (checkAndScale t opts st)))) !! n
  = if decide (n ∈ order t) then
      match servicesMap st !! n with
      | Some service =>
          match usage t n with
          | (cpu, mem, None) =>
              if applyScaleLimits (decideScale (currentScaleOf service) cpu mem opts) opts
                 =? currentScaleOf service
              then Services (project st) !! n
              else Some (SetScale service
                           (applyScaleLimits
                              (decideScale (currentScaleOf service) cpu mem opts) opts))
          | (_, _, Some _) => Services (project st) !! n
          end
      | None => Services (project st) !! n
      end
    else Services (project st) !! n.
Proof.
  intros Hnd. rewrite checkAndScale_unfold. cbn [fst].
  rewrite rangeServices_lookup by exact Hnd.
  unfold entryAfter, scaledService, targetScale.
  destruct (decide (n ∈ order t)); [| reflexivity].
  destruct (servicesMap st !! n) as [service |]; [| reflexivity].
  destruct (usage t n) as [[cpu mem] [err |]]; [reflexivity |].
  destruct (_ =? _); reflexivity.
Qed.

Lemma X9_tick_entries_witness :
  NoDup (order (busyTick None))
  /\ Services (project (fst (fst (checkAndScale (busyTick None) default_options demoState))))
       !! "web"%string = Some (web 3).
Proof.
  assert (Hnd : NoDup (order (busyTick None))) by apply NoDup_singleton.
  split; [exact Hnd |].
  exact (X9_tick_entries (busyTick None) default_options demoState "web" Hnd).
Defined.

(** * Further properties of the loop *)

Lemma backendCalls_app (l1 l2 : list Event) :
  backendCalls (l1 ++ l2) = backendCalls l1 ++ backendCalls l2.
Proof. apply List.filter_app. Qed.

Lemma scaleService_backend_blind (t t' : Tick) (opts : scaleOptions) (n : string)
    (service : ServiceConfig) (p : Project) :
  usage t' n = usage t n ->
  fst (scaleService t' opts n service p) = fst (scaleService t opts n service p)
  /\ backendCalls (snd (scaleService t' opts n service p))
     = backendCalls (snd (scaleService t opts n service p)).
Proof.
  intros Hu. unfold scaleService. rewrite Hu.
  destruct (usage t n) as [[cpu mem] [err |]]; [auto |].
  destruct (_ =? _); auto.
Qed.

Lemma rangeServices_backend_blind (t t' : Tick) (opts : scaleOptions)
    (names : list string) (st : State) :
  (forall n, usage t' n = usage t n) ->
  fst (rangeServices t' opts names st) = fst (rangeServices t opts names st)
  /\ backendCalls (snd (rangeServices t' opts names st))
     = backendCalls (snd (rangeServices t opts names st)).
Proof.
  intros Hu. revert st. induction names as [| n rest IH]; intros st; [auto |].
  destruct (servicesMap st !! n) as [service |] eqn:Hs.
  - rewrite !(rangeServices_cons_some _ opts n rest st service Hs). cbn [fst snd].
    destruct (scaleService_backend_blind t t' opts n service (project st) (Hu n))
      as (Hst & Hcalls).
    rewrite !backendCalls_app, Hst, Hcalls.
    destruct (IH (withProject st (fst (scaleService t opts n service (project st)))))
      as (-> & ->).
    auto.
  - rewrite !(rangeServices_cons_none _ opts n rest st Hs). apply IH.
Qed.

(** X10. What the backend answers has no influence on the tick beyond
    the line printed for that call: two ticks with the same iteration
    order and the same samples leave the same state and make the same
    calls to the backend, whichever of their calls fail.  A failed call
    for one service therefore keeps no other service from being
    evaluated and scaled. *)
Theorem X10_backend_failures_change_nothing (t t' : Tick) (opts : scaleOptions)
    (st : State) :
  order t' = order t ->
  (forall n, usage t' n = usage t n) ->
  fst (fst (checkAndScale t' opts st)) = fst (fst (checkAndScale t opts st))
  /\ backendCalls (snd (fst (checkAndScale t' opts st)))
     = backendCalls (snd (fst (checkAndScale t opts st))).
Proof.
  intros Ho Hu. rewrite !checkAndScale_unfold. cbn [fst snd]. rewrite Ho.
  apply rangeServices_backend_blind, Hu.
Qed.

Lemma X10_backend_failures_change_nothing_witness :
  order (busyTick (Some "boom"%string)) = order (busyTick None)
  /\ (forall n, usage (busyTick (Some "boom"%string)) n = usage (busyTick None) n)
  /\ fst (fst (checkAndScale (busyTick (Some "boom"%string)) default_options demoState))
     = fst (fst (checkAndScale (busyTick None) default_options demoState)).
Proof.
  assert (Ho : order (busyTick (Some "boom"%string)) = order (busyTick None))
    by reflexivity.
  assert (Hu : forall n, usage (busyTick (Some "boom"%string)) n = usage (busyTick None) n)
    by (intros n; reflexivity).
  split; [exact Ho | split; [exact Hu |]].
  exact (proj1 (X10_backend_failures_change_nothing (busyTick (Some "boom"%string))
                  (busyTick None) default_options demoState Ho Hu)).
Defined.



(** [filterServices] keeps the named services that the project has. *)
Lemma filterServices_spec (p : Project) (names : list string) (n : string) :
  filterServices p names !! n = if decide (n ∈ names) then Services p !! n else None.
Proof.
  unfold filterServices.
  assert (Hgen : forall acc : gmap string ServiceConfig,
             fold_left
               (fun filtered serviceName =>
                  match Services p !! serviceName with
                  | Some service => <[serviceName := service]> filtered
                  | None => filtered
                  end) names acc !! n
             = if decide (n ∈ names) then
                 match Services p !! n with
                 | Some service => Some service
                 | None => acc !! n
                 end
               else acc !! n).
  { induction names as [| n' rest IH]; intros acc; cbn [fold_left].
    - destruct (decide (n ∈ [])) as [Hin | _]; [| reflexivity].
      apply elem_of_nil in Hin. contradiction.
    - rewrite IH.
      destruct (decide (n' = n)) as [-> | Hne].
      + destruct (decide (n ∈ n :: rest)) as [_ | Hout];
          [| exfalso; apply Hout; left].
        destruct (Services p !! n) as [service |] eqn:Hp.
        * destruct (decide (n ∈ rest)); [reflexivity | apply lookup_insert_eq].
        * destruct (decide (n ∈ rest)); reflexivity.
      + assert (Hacc : (match Services p !! n' with
                        | Some service => <[n' := service]> acc
                        | None => acc
                        end) !! n = acc !! n).
        { destruct (Services p !! n'); [apply lookup_insert_ne, Hne | reflexivity]. }
        rewrite Hacc.
        destruct (decide (n ∈ rest)) as [Hin | Hout],
                 (decide (n ∈ n' :: rest)) as [Hin' | Hout']; try reflexivity.
        * exfalso. apply Hout'. right. exact Hin.
        * apply elem_of_cons in Hin' as [-> | Hin']; contradiction. }
  rewrite Hgen. rewrite lookup_empty.
  destruct (decide (n ∈ names)); [| reflexivity].
  destruct (Services p !! n); reflexivity.
Qed.

Lemma servicesMap_initialState (p : Project) (names : list string) (n : string) :
  servicesMap (initialState p names) !! n
  = match names with
    | [] => Services p !! n
    | _ => if decide (n ∈ names) then Services p !! n else None
    end.
Proof.
  destruct names as [| n0 rest]; [reflexivity |].
  unfold servicesMap. cbn [initialState services]. apply filterServices_spec.
Qed.

(** X12. The services the auto-scaler monitors when services are named
    are the named ones that the project has, with the configuration the
    project has for them; a name the project does not have is dropped
    without an error.  When none is named, it monitors the whole
    project. *)
Theorem X12_monitored_services (p : Project) (names : list string) (n : string) :
  servicesMap (initialState p names) !! n
  = match names with
    | [] => Services p !! n
    | _ => if decide (n ∈ names) then Services p !! n else None
    end.
Proof. apply servicesMap_initialState. Qed.

Lemma autoScaleLoop_services (opts : scaleOptions) (ticks : list Tick) (st : State) :
  services (fst (autoScaleLoop opts ticks st)) = services st.
Proof.
  revert st. induction ticks as [| t rest IH]; intros st; [reflexivity |].
  rewrite autoScaleLoop_cons. cbn [fst]. rewrite IH. apply rangeServices_services.
Qed.

Lemma autoScaleLoop_absent (opts : scaleOptions) (n : string) (ticks : list Tick)
    (st : State) :
  servicesMap st !! n = None ->
  Services (project (fst (autoScaleLoop opts ticks st))) !! n = Services (project st) !! n
  /\ scaleCalls n (snd (autoScaleLoop opts ticks st)) = [].
Proof.
  revert st. induction ticks as [| t rest IH]; intros st Hn; [cbn; auto |].
  rewrite autoScaleLoop_cons. cbn [fst snd].
  destruct (rangeServices_absent t opts n (order t) st Hn) as (Hp & Hm & Hc).
  destruct (IH _ Hm) as (Hp' & Hc').
  rewrite Hp', Hp. split; [reflexivity |].
  rewrite scaleCalls_app, Hc. cbn [app].
  unfold scaleCalls in *. cbn [List.filter isScaleOf]. exact Hc'.
Qed.

(** X13. Naming services restricts the auto-scaler to them: a service
    that was not named is never handed to the backend and its entry in
    the project is never written, however many ticks run. *)
Theorem X13_unnamed_services_untouched (opts : scaleOptions) (p : Project)
    (names : list string) (ticks : list Tick) (n : string) :
  names <> [] ->
  n ∉ names ->
  Services (project (fst (autoScaleLoop opts ticks (initialState p names)))) !! n
  = Services p !! n
  /\ scaleCalls n (fst (runAutoScale None (inr p) opts names ticks)) = [].
Proof.
  intros Hnames Hout.
  assert (Hn : servicesMap (initialState p names) !! n = None).
  { rewrite servicesMap_initialState. destruct names as [| n0 rest]; [contradiction |].
    destruct (decide (n ∈ n0 :: rest)); [contradiction | reflexivity]. }
  destruct (autoScaleLoop_absent opts n ticks _ Hn) as (Hp & Hc).
  split; [exact Hp |].
  cbn [runAutoScale fst]. rewrite scaleCalls_app, Hc. reflexivity.
Qed.

Lemma X13_unnamed_services_untouched_witness :
  (["db"%string] <> [])
  /\ ("web"%string ∉ ["db"%string])
  /\ scaleCalls "web"
       (fst (runAutoScale None (inr demoProject) default_options ["db"%string]
               [busyTick None])) = [].
Proof.
  assert (Hne : ["db"%string] <> []) by discriminate.
  assert (Hout : "web"%string ∉ ["db"%string])
    by (intros Hin; apply list_elem_of_singleton in Hin; discriminate).
  split; [exact Hne | split; [exact Hout |]].
  exact (proj2 (X13_unnamed_services_untouched default_options demoProject ["db"%string]
                  [busyTick None] "web" Hne Hout)).
Defined.

(** X14. When services are named, the loop never updates what it reads:
    after any number of ticks the map it ranges over is still the one
    filled at startup, also after successful calls; every tick takes the
    startup scale of a service as its current scale. *)
Theorem X14_named_services_read_startup_scale (opts : scaleOptions) (p : Project)
    (names : list string) (ticks : list Tick) :
  names <> [] ->
  servicesMap (fst (autoScaleLoop opts ticks (initialState p names)))
  = filterServices p names
  /\ (forall n service,
         filterServices p names !! n = Some service ->
         servicesMap (fst (autoScaleLoop opts ticks (initialState p names))) !! n
         = Some service
         /\ Services p !! n = Some service).
Proof.
  intros Hnames.
  assert (Heq : servicesMap (fst (autoScaleLoop opts ticks (initialState p names)))
                = filterServices p names).
  { unfold servicesMap. rewrite autoScaleLoop_services.
    destruct names as [| n0 rest]; [contradiction | reflexivity]. }
  split; [exact Heq |].
  intros n service Hn. rewrite Heq. split; [exact Hn |].
  apply (filterServices_lookup p names n service Hn).
Qed.

Lemma X14_named_services_read_startup_scale_witness :
  (["web"%string] <> [])
  /\ servicesMap (fst (autoScaleLoop default_options [busyTick None; busyTick None]
                         (initialState demoProject ["web"%string])))
     = filterServices demoProject ["web"%string].
Proof.
  assert (Hne : ["web"%string] <> []) by discriminate.
  split; [exact Hne |].
  exact (proj1 (X14_named_services_read_startup_scale default_options demoProject
                  ["web"%string] [busyTick None; busyTick None] Hne)).
Defined.

Lemma scaleService_keys (t : Tick) (opts : scaleOptions) (n : string)
    (service : ServiceConfig) (p : Project) (k : string) :
  is_Some (Services p !! n) ->
  is_Some (Services (fst (scaleService t opts n service p)) !! k)
  <-> is_Some (Services p !! k).
Proof.
  intros Hn. unfold scaleService.
  destruct (usage t n) as [[cpu mem] [err |]]; [reflexivity |].
  destruct (_ =? _); [reflexivity |].
  cbn. destruct (decide (n = k)) as [-> | Hne].
  - rewrite lookup_insert_eq. split; [intros _; exact Hn | intros _; eauto].
  - rewrite lookup_insert_ne by exact Hne. reflexivity.
Qed.

Lemma rangeServices_keys (t : Tick) (opts : scaleOptions) (names : list string)
    (st : State) :
  monitoredInProject st ->
  monitoredInProject (fst (rangeServices t opts names st))
  /\ forall k, is_Some (Services (project (fst (rangeServices t opts names st))) !! k)
               <-> is_Some (Services (project st) !! k).
Proof.
  revert st. induction names as [| n rest IH]; intros st Hinv; [cbn; split; [exact Hinv | reflexivity] |].
  destruct (servicesMap st !! n) as [service |] eqn:Hs.
  - rewrite (rangeServices_cons_some t opts n rest st service Hs). cbn [fst].
    assert (Hn : is_Some (Services (project st) !! n)) by (apply Hinv; rewrite Hs; eauto).
    assert (Hinv1 : monitoredInProject
                      (withProject st (fst (scaleService t opts n service (project st))))).
    { intros k Hk. cbn [withProject project].
      apply (scaleService_keys t opts n service (project st) k Hn).
      unfold servicesMap in Hk. cbn [withProject services project] in Hk.
      destruct (services st) as [| m] eqn:Hsv.
      - apply (scaleService_keys t opts n service (project st) k Hn). exact Hk.
      - apply Hinv. unfold servicesMap. rewrite Hsv. exact Hk. }
    destruct (IH _ Hinv1) as (Hinv2 & Hkeys).
    split; [exact Hinv2 |].
    intros k. rewrite Hkeys. cbn [withProject project].
    apply scaleService_keys, Hn.
  - rewrite (rangeServices_cons_none t opts n rest st Hs). apply IH, Hinv.
Qed.

Lemma autoScaleLoop_keys (opts : scaleOptions) (ticks : list Tick) (st : State) :
  monitoredInProject st ->
  ProjectName (project (fst (autoScaleLoop opts ticks st))) = ProjectName (project st)
  /\ forall k, is_Some (Services (project (fst (autoScaleLoop opts ticks st))) !! k)
               <-> is_Some (Services (project st) !! k).
Proof.
  revert st. induction ticks as [| t rest IH]; intros st Hinv; [cbn; split; reflexivity |].
  rewrite autoScaleLoop_cons. cbn [fst].
  destruct (rangeServices_keys t opts (order t) st Hinv) as (Hinv1 & Hkeys1).
  destruct (IH _ Hinv1) as (Hname & Hkeys).
  split; [rewrite Hname; apply rangeServices_name |].
  intros k. rewrite Hkeys. apply Hkeys1.
Qed.

Lemma initialState_monitored (p : Project) (names : list string) :
  monitoredInProject (initialState p names).
Proof.
  intros n. rewrite servicesMap_initialState. cbn [initialState project].
  destruct names as [| n0 rest]; [auto |].
  destruct (decide (n ∈ n0 :: rest)); [auto | intros [x [=]]].
Qed.

(** X15. The auto-scaler neither adds nor removes a service and never
    renames the project: after any number of ticks the project has the
    services it was loaded with, under the same name. *)
Theorem X15_loop_keeps_the_services (opts : scaleOptions) (p : Project)
    (names : list string) (ticks : list Tick) :
  ProjectName (project (fst (autoScaleLoop opts ticks (initialState p names))))
  = ProjectName p
  /\ dom (Services (project (fst (autoScaleLoop opts ticks (initialState p names)))))
     = dom (Services p).
Proof.
  destruct (autoScaleLoop_keys opts ticks (initialState p names)
              (initialState_monitored p names)) as (Hname & Hkeys).
  split; [exact Hname |].
  apply set_eq. intros k. rewrite !elem_of_dom. apply Hkeys.
Qed.

Lemma rangeServices_idle (t : Tick) (opts : scaleOptions) (names : list string)
    (st : State) :
  (forall n, servicesMap st !! n = None) ->
  rangeServices t opts names st = (st, []).
Proof.
  intros Hempty. induction names as [| n rest IH]; [reflexivity |].
  rewrite (rangeServices_cons_none t opts n rest st (Hempty n)). exact IH.
Qed.

Lemma autoScaleLoop_idle (opts : scaleOptions) (ticks : list Tick) (st : State) :
  (forall n, servicesMap st !! n = None) ->
  autoScaleLoop opts ticks st
  = (st, List.map (fun _ => Sleep (interval opts)) ticks ++ [Printf LStopped]).
Proof.
  intros Hempty. induction ticks as [| t rest IH]; [reflexivity |].
  rewrite autoScaleLoop_cons, (rangeServices_idle t opts (order t) st Hempty).
  cbn [fst snd]. rewrite IH. reflexivity.
Qed.

(** X16. Service names that the project does not have are not reported:
    when none of the named services exists, the auto-scaler announces an
    empty set of services and then idles - it sleeps through every tick
    without sampling, printing or calling the backend - until it is
    cancelled, and returns no error. *)
Theorem X16_unknown_names_idle (opts : scaleOptions) (p : Project)
    (names : list string) (ticks : list Tick) :
  names <> [] ->
  (forall n, n ∈ names -> Services p !! n = None) ->
  runAutoScale None (inr p) opts names ticks
  = ([Printf (LStarting (strategy opts));
      Printf (LThresholds (cpuThreshold opts) (memThreshold opts));
      Printf (LReplicaRange (minReplicas opts) (maxReplicas opts));
      Printf (LCheckInterval (interval opts));
      Printf (LServices ∅)]
     ++ List.map (fun _ => Sleep (interval opts)) ticks ++ [Printf LStopped],
     None).
Proof.
  intros Hnames Hunknown.
  assert (Hempty : forall n, servicesMap (initialState p names) !! n = None).
  { intros n. rewrite servicesMap_initialState.
    destruct names as [| n0 rest]; [contradiction |].
    destruct (decide (n ∈ n0 :: rest)) as [Hin | _]; [apply Hunknown, Hin | reflexivity]. }
  assert (Hmap : servicesMap (initialState p names) = ∅).
  { apply map_eq. intros n. rewrite Hempty, lookup_empty. reflexivity. }
  cbn [runAutoScale]. rewrite (autoScaleLoop_idle opts ticks _ Hempty), Hmap, dom_empty_L.
  reflexivity.
Qed.

Lemma X16_unknown_names_idle_witness :
  (["wbe"%string] <> [])
  /\ (forall n, n ∈ ["wbe"%string] -> Services demoProject !! n = None)
  /\ snd (runAutoScale None (inr demoProject) default_options ["wbe"%string]
            [busyTick None]) = None.
Proof.
  assert (Hne : ["wbe"%string] <> []) by discriminate.
  assert (Hun : forall n, n ∈ ["wbe"%string] -> Services demoProject !! n = None).
  { intros n Hin. apply list_elem_of_singleton in Hin. subst n. reflexivity. }
  split; [exact Hne | split; [exact Hun |]].
  exact (f_equal snd (X16_unknown_names_idle default_options demoProject ["wbe"%string]
                        [busyTick None] Hne Hun)).
Defined.

Lemma scaleService_no_error_line (t : Tick) (opts : scaleOptions) (n : string)
    (service : ServiceConfig) (p : Project) (e : error) :
  ~ In (Printf (LError e)) (snd (scaleService t opts n service p)).
Proof.
  unfold scaleService.
  destruct (usage t n) as [[cpu mem] [err |]]; [cbn; intros [[=] | []] |].
  destruct (_ =? _); cbn; [intros [[=] | []] |].
  destruct (scaleResult t n); intros [[=] | [[=] | [[=] | [[=] | []]]]].
Qed.

Lemma rangeServices_no_error_line (t : Tick) (opts : scaleOptions) (names : list string)
    (st : State) (e : error) :
  ~ In (Printf (LError e)) (snd (rangeServices t opts names st)).
Proof.
  revert st. induction names as [| n rest IH]; intros st; [cbn; auto |].
  destruct (servicesMap st !! n) as [service |] eqn:Hs.
  - rewrite (rangeServices_cons_some t opts n rest st service Hs). cbn [snd].
    intros Hin. apply in_app_or in Hin as [Hin | Hin].
    + exact (scaleService_no_error_line t opts n service (project st) e Hin).
    + exact (IH _ Hin).
  - rewrite (rangeServices_cons_none t opts n rest st Hs). apply IH.
Qed.

(** X17. [checkAndScale] has no path that returns an error, so the line
    "Error during auto-scaling" is never printed, whatever the sampler
    and the backend do; and once the loop has started, [runAutoScale]
    ends its trace with "Auto-scaling stopped." *)
Theorem X17_no_error_is_ever_reported (newBackend : option error)
    (toProject : error + Project) (opts : scaleOptions) (names : list string)
    (ticks : list Tick) :
  (forall e, ~ In (Printf (LError e))
               (fst (runAutoScale newBackend toProject opts names ticks)))
  /\ (forall p, newBackend = None -> toProject = inr p ->
                last (fst (runAutoScale newBackend toProject opts names ticks))
                = Some (Printf LStopped)).
Proof.
  assert (Hloop : forall st e, ~ In (Printf (LError e)) (snd (autoScaleLoop opts ticks st))).
  { induction ticks as [| t rest IH]; intros st e; [cbn; intros [[=] | []] |].
    rewrite autoScaleLoop_cons. cbn [snd]. intros Hin.
    apply in_app_or in Hin as [Hin | [[=] | Hin]].
    - exact (rangeServices_no_error_line t opts (order t) st e Hin).
    - exact (IH _ e Hin). }
  assert (Hlast : forall st, last (snd (autoScaleLoop opts ticks st))
                             = Some (Printf LStopped)).
  { clear Hloop. induction ticks as [| t rest IH]; intros st; [reflexivity |].
    rewrite autoScaleLoop_cons. cbn [snd].
    rewrite last_app, last_cons, IH. reflexivity. }
  split.
  - intros e. unfold runAutoScale.
    destruct newBackend as [err |]; [cbn; auto |].
    destruct toProject as [err | p]; [cbn; auto |].
    cbn [fst]. intros Hin. apply in_app_or in Hin as [Hin | Hin].
    + cbn in Hin. repeat destruct Hin as [[=] | Hin]. exact Hin.
    + exact (Hloop _ e Hin).
  - intros p -> ->. cbn [runAutoScale fst]. rewrite last_app, Hlast. reflexivity.
Qed.

Lemma X17_no_error_is_ever_reported_witness :
  @None error = None
  /\ @inr error Project demoProject = inr demoProject
  /\ last (fst (runAutoScale None (inr demoProject) default_options []
                  [busyTick (Some "boom"%string)]))
     = Some (Printf LStopped).
Proof.
  split; [reflexivity | split; [reflexivity |]].
  exact (proj2 (X17_no_error_is_ever_reported None (inr demoProject) default_options []
                  [busyTick (Some "boom"%string)]) demoProject eq_refl eq_refl).
Defined.

(** * Manual scaling *)

Lemma cutEq_found (s k v : string) :
  cutEq s = (k, v, true) ->
  s = (k ++ "=" ++ v)%string /\ forall a b, k <> (a ++ "=" ++ b)%string.
Proof.
  revert k v. induction s as [| c rest IH]; intros k v; cbn [cutEq]; [discriminate |].
  destruct (Ascii.eqb_spec c "="%char) as [-> | Hc].
  - intros [= <- <-]. split; [reflexivity |]. intros [| c' a] b; discriminate.
  - destruct (cutEq rest) as [[k' v'] found]. intros [= <- <- ->].
    destruct (IH k' v' eq_refl) as (-> & Hno). split; [reflexivity |].
    intros [| c' a] b; cbn; [intros [= ->]; contradiction |].
    intros [= _ Hk]. exact (Hno a b Hk).
Qed.

Lemma cutEq_not_found (s k v : string) :
  cutEq s = (k, v, false) ->
  k = s /\ v = ""%string /\ forall a b, s <> (a ++ "=" ++ b)%string.
Proof.
  revert k v. induction s as [| c rest IH]; intros k v; cbn [cutEq].
  - intros [= <- <-]. split; [reflexivity | split; [reflexivity |]].
    intros [| c' a] b; discriminate.
  - destruct (Ascii.eqb_spec c "="%char) as [-> | Hc]; [discriminate |].
    destruct (cutEq rest) as [[k' v'] found]. intros [= <- <- ->].
    destruct (IH k' v' eq_refl) as (-> & -> & Hno).
    split; [reflexivity | split; [reflexivity |]].
    intros [| c' a] b; cbn; [intros [= ->]; contradiction |].
    intros [= _ Hk]. exact (Hno a b Hk).
Qed.

Lemma cutEq_intro (k v : string) :
  (forall a b, k <> (a ++ "=" ++ b)%string) ->
  cutEq (k ++ "=" ++ v) = (k, v, true).
Proof.
  induction k as [| c k IH]; intros Hno; [reflexivity |].
  change (cutEq (String c (k ++ "=" ++ v)) = (String c k, v, true)).
  cbn [cutEq].
  destruct (Ascii.eqb_spec c "="%char) as [-> | Hc].
  - exfalso. apply (Hno ""%string k). reflexivity.
  - rewrite IH; [reflexivity |].
    intros a b Hk. apply (Hno (String c a) b). cbn. rewrite Hk. reflexivity.
Qed.

Lemma Atoi_int (v : string) (n : Z) : Atoi v = Some n -> v <> ""%string /\ GoInt.is_int n.
Proof.
  unfold Atoi. intros H. split; [intros ->; discriminate |].
  destruct (match v with
            | String "-"%char rest => (true, rest)
            | String "+"%char rest => (false, rest)
            | _ => (false, v)
            end) as [negative digits].
  destruct digits as [| c digits]; [discriminate |].
  destruct (parseDigits (String c digits) 0) as [m |]; [| discriminate].
  destruct (GoInt.in_range (if negative then - m else m)) eqn:Hr; [| discriminate].
  injection H as <-. unfold GoInt.in_range in Hr. unfold GoInt.is_int.
  apply andb_true_iff in Hr as [H1 H2]. apply Z.leb_le in H1, H2. auto.
Qed.

(** X18. An argument of the manual mode is accepted exactly when it is
    [KEY=VALUE] with a non-empty key free of ['='] - the key ends at the
    first ['='] - and a value that [Atoi] reads; the replica count is
    then an [int], of either sign. *)
Theorem X18_accepted_arguments (arg k : string) (n : Z) :
  parseServiceReplicas arg = inr (k, n)
  <-> exists v, arg = (k ++ "=" ++ v)%string
                /\ k <> ""%string
                /\ (forall a b, k <> (a ++ "=" ++ b)%string)
                /\ Atoi v = Some n
                /\ GoInt.is_int n.
Proof.
  unfold parseServiceReplicas. split.
  - destruct (cutEq arg) as [[k' v'] ok] eqn:Hcut.
    destruct ok; cbn [negb orb]; [| discriminate].
    destruct (String.eqb_spec k' "") as [-> | Hk]; cbn [orb]; [discriminate |].
    destruct (String.eqb_spec v' "") as [-> | Hv]; [discriminate |].
    destruct (Atoi v') as [n' |] eqn:Ha; [| discriminate].
    intros [= <- <-]. destruct (cutEq_found arg k' v' Hcut) as (-> & Hno).
    exists v'. destruct (Atoi_int v' n' Ha). auto.
  - intros (v & -> & Hk & Hno & Ha & _).
    rewrite (cutEq_intro k v Hno). cbn [negb orb].
    destruct (String.eqb_spec k "") as [-> | _]; [contradiction |]. cbn [orb].
    destruct (String.eqb_spec v "") as [-> | _]; [discriminate |].
    rewrite Ha. reflexivity.
Qed.

Lemma parseInto_app (l1 l2 : list string) (acc : gmap string Z) :
  parseInto (l1 ++ l2) acc
  = match parseInto l1 acc with
    | inl err => inl err
    | inr m => parseInto l2 m
    end.
Proof.
  revert acc. induction l1 as [| arg l1 IH]; intros acc; [reflexivity |].
  cbn [app parseInto].
  destruct (parseServiceReplicas arg) as [err | [k n]]; [reflexivity | apply IH].
Qed.

(** X19. Arguments are read from left to right, and a later one
    overrides an earlier one for the same service: parsing a list with
    one more argument at its end is parsing the list, then - unless that
    failed - reading the argument and storing its count under its key. *)
Theorem X19_later_arguments_override (args : list string) (arg : string) :
  parseServicesReplicasArgs (args ++ [arg])
  = match parseServicesReplicasArgs args with
    | inl err => inl err
    | inr m =>
        match parseServiceReplicas arg with
        | inl err => inl err
        | inr (k, n) => inr (<[k := n]> m)
        end
    end.
Proof.
  unfold parseServicesReplicasArgs. rewrite parseInto_app.
  destruct (parseInto args ∅) as [err | m]; [reflexivity |].
  cbn [parseInto]. destruct (parseServiceReplicas arg) as [err | [k n]]; reflexivity.
Qed.

Lemma parseInto_error (args : list string) (acc : gmap string Z) (e : error) :
  parseInto args acc = inl e
  <-> exists good bad rest,
        args = good ++ bad :: rest
        /\ (forall arg, arg ∈ good -> exists k n, parseServiceReplicas arg = inr (k, n))
        /\ parseServiceReplicas bad = inl e.
Proof.
  revert acc. induction args as [| arg args IH]; intros acc; cbn [parseInto].
  - split; [discriminate |]. intros ([| g good] & bad & rest & [=] & _).
  - destruct (parseServiceReplicas arg) as [err | [k n]] eqn:Harg.
    + split.
      * intros [= ->]. exists [], arg, args. split; [reflexivity |].
        split; [| exact Harg]. intros a Ha. apply elem_of_nil in Ha. contradiction.
      * intros ([| g good] & bad & rest & Heq & Hgood & Hbad); injection Heq as <- Hrest.
        -- congruence.
        -- destruct (Hgood arg ltac:(left)) as (k & n & Hk). congruence.
    + rewrite IH. split.
      * intros (good & bad & rest & -> & Hgood & Hbad).
        exists (arg :: good), bad, rest. split; [reflexivity |]. split; [| exact Hbad].
        intros a Ha. apply elem_of_cons in Ha as [-> | Ha]; [eauto | apply Hgood, Ha].
      * intros ([| g good] & bad & rest & Heq & Hgood & Hbad); injection Heq as <- Hrest.
        -- congruence.
        -- exists good, bad, rest. split; [exact Hrest |]. split; [| exact Hbad].
           intros a Ha. apply Hgood. right. exact Ha.
Qed.

Lemma parseServiceReplicas_error (arg : string) (e : error) :
  parseServiceReplicas arg = inl e ->
  e = ("invalid scale specifier: " ++ arg)%string
  \/ e = ("invalid scale specifier: can't parse replica value as int: " ++ arg)%string.
Proof.
  unfold parseServiceReplicas.
  destruct (cutEq arg) as [[k v] ok].
  destruct (negb ok || String.eqb k "" || String.eqb v ""); [intros [= <-]; auto |].
  destruct (Atoi v); [discriminate | intros [= <-]; auto].
Qed.

(** X20. Parsing fails exactly when some argument is not accepted, and
    the error is the one of the first such argument, which it quotes in
    full; nothing is returned for the arguments before it. *)
Theorem X20_first_bad_argument_is_reported (args : list string) (e : error) :
  parseServicesReplicasArgs args = inl e
  <-> exists good bad rest,
        args = good ++ bad :: rest
        /\ (forall arg, arg ∈ good -> exists k n, parseServiceReplicas arg = inr (k, n))
        /\ parseServiceReplicas bad = inl e
        /\ (e = ("invalid scale specifier: " ++ bad)%string
            \/ e = ("invalid scale specifier: can't parse replica value as int: "
                    ++ bad)%string).
Proof.
  unfold parseServicesReplicasArgs. rewrite parseInto_error. split.
  - intros (good & bad & rest & Heq & Hgood & Hbad).
    exists good, bad, rest. pose proof (parseServiceReplicas_error bad e Hbad). auto.
  - intros (good & bad & rest & Heq & Hgood & Hbad & _).
    exists good, bad, rest. auto.
Qed.

Lemma parseInto_lookup (args : list string) (acc m : gmap string Z) (k : string) (n : Z) :
  parseInto args acc = inr m ->
  m !! k = Some n
  <-> (exists before arg after,
          args = before ++ arg :: after
          /\ parseServiceReplicas arg = inr (k, n)
          /\ forall arg' n', arg' ∈ after -> parseServiceReplicas arg' <> inr (k, n'))
      \/ (acc !! k = Some n
          /\ forall arg' n', arg' ∈ args -> parseServiceReplicas arg' <> inr (k, n')).
Proof.
  revert acc. induction args as [| arg args IH]; intros acc; cbn [parseInto].
  - intros [= <-]. split.
    + intros Hk. right. split; [exact Hk |]. intros a n' Ha.
      apply elem_of_nil in Ha. contradiction.
    + intros [([| b before] & a & after & [=] & _) | [Hk _]]. exact Hk.
  - destruct (parseServiceReplicas arg) as [err | [k0 n0]] eqn:Harg; [discriminate |].
    intros Hm. rewrite (IH _ Hm). split.
    + intros [(before & a & after & -> & Ha & Hlast) | [Hk Hnone]].
      * left. exists (arg :: before), a, after. auto.
      * destruct (decide (k0 = k)) as [-> | Hne].
        -- rewrite lookup_insert_eq in Hk. injection Hk as ->.
           left. exists [], arg, args. auto.
        -- rewrite lookup_insert_ne in Hk by exact Hne.
           right. split; [exact Hk |]. intros a n' Ha.
           apply elem_of_cons in Ha as [-> | Ha]; [congruence | apply Hnone, Ha].
    + intros [([| b before] & a & after & Heq & Ha & Hlast) | [Hk Hnone]].
      * injection Heq as <- <-. right.
        assert (k0 = k /\ n0 = n) as [-> ->] by (split; congruence).
        split; [apply lookup_insert_eq | exact Hlast].
      * injection Heq as <- ->. left. exists before, a, after. auto.
      * right. assert (Hne : k0 <> k).
        { intros ->. apply (Hnone arg n0); [left | exact Harg]. }
        rewrite lookup_insert_ne by exact Hne. split; [exact Hk |].
        intros a n' Ha. apply Hnone. right. exact Ha.
Qed.

(** X21. When the arguments are all accepted, the map returned holds for
    a service the replica count of the last argument that names it, and
    holds nothing for a service that no argument names. *)
Theorem X21_parsed_map_holds_last_count (args : list string) (m : gmap string Z)
    (k : string) (n : Z) :
  parseServicesReplicasArgs args = inr m ->
  m !! k = Some n
  <-> exists before arg after,
        args = before ++ arg :: after
        /\ parseServiceReplicas arg = inr (k, n)
        /\ forall arg' n', arg' ∈ after -> parseServiceReplicas arg' <> inr (k, n').
Proof.
  intros Hm. rewrite (parseInto_lookup args ∅ m k n Hm). split.
  - intros [H | [Hk _]]; [exact H |]. rewrite lookup_empty in Hk. discriminate.
  - intros H. left. exact H.
Qed.

Lemma X21_parsed_map_holds_last_count_witness :
  parseServicesReplicasArgs ["web=3"; "db=2"; "web=5"]%string
  = inr {[ "web"%string := 5; "db"%string := 2 ]}
  /\ ({[ "web"%string := 5; "db"%string := 2 ]} : gmap string Z) !! "web"%string = Some 5.
Proof.
  assert (Hm : parseServicesReplicasArgs ["web=3"; "db=2"; "web=5"]%string
               = inr {[ "web"%string := 5; "db"%string := 2 ]}).
  { vm_compute. reflexivity. }
  split; [exact Hm |].
  apply (proj2 (X21_parsed_map_holds_last_count _ _ "web" 5 Hm)).
  exists ["web=3"; "db=2"]%string, "web=5"%string, []. split; [reflexivity |].
  split; [reflexivity |]. intros a n' Ha. apply elem_of_nil in Ha. contradiction.
Defined.

#[local] Instance stringLe_total : Total stringLe.
Proof. intros a b. apply String.leb_total. Qed.

(** X22. The service names that [runScale] hands to the project loader
    and to the backend are exactly the services named in the arguments,
    each once, in ascending order. *)
Theorem X22_sorted_service_names (serviceReplicaTuples : gmap string Z) :
  Sorted stringLe (sortedKeys serviceReplicaTuples)
  /\ NoDup (sortedKeys serviceReplicaTuples)
  /\ forall k, k ∈ sortedKeys serviceReplicaTuples <-> is_Some (serviceReplicaTuples !! k).
Proof.
  unfold sortedKeys. split; [apply Sorted_merge_sort, _ |].
  split.
  - rewrite merge_sort_Permutation. apply NoDup_elements.
  - intros k. rewrite merge_sort_Permutation, elem_of_elements, elem_of_dom. reflexivity.
Qed.

Lemma GetService_found (p : Project) (k : string) (service : ServiceConfig) :
  Services p !! k = Some service -> GetService p k = inr service.
Proof. intros H. unfold GetService. rewrite H. reflexivity. Qed.

(** When every service to scale is in the project, the loop sets them
    all, whatever the order. *)
Lemma setScales_ok (keys : list string) (tuples : gmap string Z) (p : Project) :
  (forall k, k ∈ keys -> is_Some (tuples !! k) -> is_Some (Services p !! k)) ->
  exists p',
    setScales keys tuples p = inr p'
    /\ ProjectName p' = ProjectName p
    /\ forall k,
         Services p' !! k
         = if decide (k ∈ keys) then
             match tuples !! k with
             | Some v => (fun service => SetScale service v) <$> Services p !! k
             | None => Services p !! k
             end
           else Services p !! k.
Proof.
  revert p. induction keys as [| k0 keys IH]; intros p Hall.
  - exists p. split; [reflexivity | split; [reflexivity |]]. intros k.
    destruct (decide (k ∈ [])) as [Hin | _]; [| reflexivity].
    apply elem_of_nil in Hin. contradiction.
  - cbn [setScales]. destruct (tuples !! k0) as [v0 |] eqn:Ht.
    + destruct (Hall k0 ltac:(left) ltac:(eauto)) as [service Hs].
      rewrite (GetService_found p k0 service Hs).
      destruct (IH (setService p k0 (SetScale service v0))) as (p' & Hp' & Hname & Hlook).
      { intros k Hk Htk. cbn. destruct (decide (k0 = k)) as [-> | Hne].
        - rewrite lookup_insert_eq. eauto.
        - rewrite lookup_insert_ne by exact Hne. apply Hall; [right |]; assumption. }
      exists p'. split; [exact Hp' | split; [rewrite Hname; reflexivity |]].
      intros k. rewrite Hlook. cbn [setService Services].
      destruct (decide (k0 = k)) as [-> | Hne].
      * rewrite lookup_insert_eq, Ht, Hs.
        destruct (decide (k ∈ keys)), (decide (k ∈ k :: keys)) as [_ | Hout];
          try reflexivity; exfalso; apply Hout; left.
      * rewrite lookup_insert_ne by exact Hne.
        destruct (decide (k ∈ keys)) as [Hin | Hout],
                 (decide (k ∈ k0 :: keys)) as [Hin' | Hout']; try reflexivity.
        -- exfalso. apply Hout'. right. exact Hin.
        -- apply elem_of_cons in Hin' as [-> | Hin']; contradiction.
    + destruct (IH p) as (p' & Hp' & Hname & Hlook).
      { intros k Hk Htk. apply Hall; [right |]; assumption. }
      exists p'. split; [exact Hp' | split; [exact Hname |]].
      intros k. rewrite Hlook.
      destruct (decide (k ∈ keys)) as [Hin | Hout],
               (decide (k ∈ k0 :: keys)) as [Hin' | Hout']; try reflexivity.
      * exfalso. apply Hout'. right. exact Hin.
      * apply elem_of_cons in Hin' as [-> | Hin']; [| contradiction].
        rewrite Ht. reflexivity.
Qed.

(** A single missing service makes the loop fail. *)
Lemma setScales_missing (keys : list string) (tuples : gmap string Z) (p : Project)
    (k : string) :
  k ∈ keys -> is_Some (tuples !! k) -> Services p !! k = None ->
  exists missing,
    setScales keys tuples p = inl ("no such service: " ++ missing)%string
    /\ missing ∈ keys /\ is_Some (tuples !! missing) /\ Services p !! missing = None.
Proof.
  revert p. induction keys as [| k0 keys IH]; intros p Hin Ht Hp.
  - apply elem_of_nil in Hin. contradiction.
  - cbn [setScales]. destruct (tuples !! k0) as [v0 |] eqn:Ht0.
    + unfold GetService. destruct (Services p !! k0) as [service |] eqn:Hs.
      * assert (Hne : k0 <> k) by congruence.
        apply elem_of_cons in Hin as [-> | Hin]; [contradiction |].
        destruct (IH (setService p k0 (SetScale service v0)) Hin Ht) as (mi & Hm & H1 & H2 & H3).
        { cbn. rewrite lookup_insert_ne by exact Hne. exact Hp. }
        exists mi. split; [exact Hm | split; [right; exact H1 | split; [exact H2 |]]].
        cbn in H3. destruct (decide (k0 = mi)) as [-> | Hne'].
        -- rewrite lookup_insert_eq in H3. discriminate.
        -- rewrite lookup_insert_ne in H3 by exact Hne'. exact H3.
      * exists k0. split; [reflexivity | split; [left | split; [rewrite Ht0; eauto | exact Hs]]].
    + apply elem_of_cons in Hin as [-> | Hin].
      * rewrite Ht0 in Ht. destruct Ht as [x [=]].
      * destruct (IH p Hin Ht Hp) as (mi & Hm & H1 & H2 & H3).
        exists mi. split; [exact Hm | split; [right; exact H1 | auto]].
Qed.

(** X23. A request of [runScale] that reaches the backend is complete:
    every service named in the arguments is in the project, and carries
    there the replica count asked for; every other service is as it was
    loaded; the request lists the sorted names; and the result of
    [runScale] is the answer of the backend.  The order in which Go visits
    the map makes no difference. *)
Theorem X23_manual_request_is_complete (env : Manual) (opts : scaleOptions)
    (tuples : gmap string Z) (req : ScaleRequest) :
  fst (runScale env opts tuples) = Some req ->
  (forall k, is_Some (tuples !! k) -> k ∈ keyOrder env) ->
  exists p0 p,
    newBackend env = None
    /\ toProject env (sortedKeys tuples) = inr p0
    /\ (if noDeps opts then withSelectedServices env p0 (sortedKeys tuples) else inr p0)
       = inr p
    /\ requestServices req = sortedKeys tuples
    /\ snd (runScale env opts tuples) = backendScale env req
    /\ (forall k, is_Some (tuples !! k) -> is_Some (Services p !! k))
    /\ ProjectName (requestProject req) = ProjectName p
    /\ forall k,
         Services (requestProject req) !! k
         = match tuples !! k with
           | Some v => (fun service => SetScale service v) <$> Services p !! k
           | None => Services p !! k
           end.
Proof.
  unfold runScale. intros Hreq Hcover.
  destruct (newBackend env) as [err |]; [discriminate |].
  destruct (toProject env (sortedKeys tuples)) as [err | p0] eqn:Hp0; [discriminate |].
  destruct (if noDeps opts then withSelectedServices env p0 (sortedKeys tuples) else inr p0)
    as [err | p] eqn:Hp; [discriminate |].
  destruct (setScales (keyOrder env) tuples p) as [err | p'] eqn:Hset; [discriminate |].
  cbn [fst snd] in *. injection Hreq as <-.
  assert (Hall : forall k, is_Some (tuples !! k) -> is_Some (Services p !! k)).
  { intros k Hk. destruct (Services p !! k) as [service |] eqn:Hs; [eauto |].
    destruct (setScales_missing (keyOrder env) tuples p k (Hcover k Hk) Hk Hs)
      as (missing & Hm & _). congruence. }
  destruct (setScales_ok (keyOrder env) tuples p) as (p'' & Hp'' & Hname & Hlook).
  { intros k _ Hk. apply Hall, Hk. }
  assert (p'' = p') as -> by congruence.
  exists p0, p.
  split; [reflexivity | split; [reflexivity | split; [exact Hp |]]].
  split; [reflexivity | split; [reflexivity | split; [exact Hall |]]].
  split; [exact Hname |].
  intros k. cbn [requestProject]. rewrite Hlook.
  destruct (decide (k ∈ keyOrder env)) as [_ | Hout]; [reflexivity |].
  destruct (tuples !! k) as [v |] eqn:Ht; [| reflexivity].
  exfalso. apply Hout, Hcover. eauto.
Qed.

Lemma X23_manual_request_is_complete_witness :
  fst (runScale demoManual default_options {[ "web"%string := 5 ]}) = Some demoRequest
  /\ (forall k, is_Some (({[ "web"%string := 5 ]} : gmap string Z) !! k) ->
                k ∈ keyOrder demoManual)
  /\ exists p0 p,
       newBackend demoManual = None
       /\ toProject demoManual (sortedKeys {[ "web"%string := 5 ]}) = inr p0
       /\ (if noDeps default_options
           then withSelectedServices demoManual p0 (sortedKeys {[ "web"%string := 5 ]})
           else inr p0) = inr p
       /\ requestServices demoRequest = sortedKeys {[ "web"%string := 5 ]}
       /\ snd (runScale demoManual default_options {[ "web"%string := 5 ]})
          = backendScale demoManual demoRequest
       /\ (forall k, is_Some (({[ "web"%string := 5 ]} : gmap string Z) !! k) ->
                     is_Some (Services p !! k))
       /\ ProjectName (requestProject demoRequest) = ProjectName p
       /\ forall k,
            Services (requestProject demoRequest) !! k
            = match ({[ "web"%string := 5 ]} : gmap string Z) !! k with
              | Some v => (fun service => SetScale service v) <$> Services p !! k
              | None => Services p !! k
              end.
Proof.
  assert (Hreq : fst (runScale demoManual default_options {[ "web"%string := 5 ]})
                 = Some demoRequest) by (vm_compute; reflexivity).
  assert (Hcover : forall k, is_Some (({[ "web"%string := 5 ]} : gmap string Z) !! k) ->
                             k ∈ keyOrder demoManual).
  { intros k [v Hk]. apply lookup_singleton_Some in Hk as [<- _].
    apply list_elem_of_singleton. reflexivity. }
  split; [exact Hreq | split; [exact Hcover |]].
  exact (X23_manual_request_is_complete demoManual default_options
           {[ "web"%string := 5 ]} demoRequest Hreq Hcover).
Defined.

(** X24. If a service named in the arguments is not in the project,
    [runScale] fails with "no such service" for a missing one and sends
    nothing to the backend: no service is scaled, not even those that
    exist. *)
Theorem X24_missing_service_scales_nothing (env : Manual) (opts : scaleOptions)
    (tuples : gmap string Z) (p0 p : Project) (k : string) :
  newBackend env = None ->
  toProject env (sortedKeys tuples) = inr p0 ->
  (if noDeps opts then withSelectedServices env p0 (sortedKeys tuples) else inr p0)
  = inr p ->
  k ∈ keyOrder env -> is_Some (tuples !! k) -> Services p !! k = None ->
  exists missing,
    runScale env opts tuples = (None, Some ("no such service: " ++ missing)%string)
    /\ is_Some (tuples !! missing)
    /\ Services p !! missing = None.
Proof.
  intros Hb Hp0 Hp Hin Ht Hs. unfold runScale. rewrite Hb, Hp0, Hp.
  destruct (setScales_missing (keyOrder env) tuples p k Hin Ht Hs)
    as (missing & -> & _ & Hm & Hnone).
  exists missing. auto.
Qed.

Lemma X24_missing_service_scales_nothing_witness :
  newBackend demoManual = None
  /\ toProject demoManual (sortedKeys {[ "web"%string := 5; "db"%string := 1 ]})
     = inr demoProject
  /\ (if noDeps default_options
      then withSelectedServices demoManual demoProject
             (sortedKeys {[ "web"%string := 5; "db"%string := 1 ]})
      else inr demoProject) = inr demoProject
  /\ fst (runScale
            {| newBackend := None;
               toProject := toProject demoManual;
               withSelectedServices := withSelectedServices demoManual;
               backendScale := backendScale demoManual;
               keyOrder := ["web"; "db"]%string |}
            default_options {[ "web"%string := 5; "db"%string := 1 ]}) = None.
Proof.
  split; [reflexivity | split; [reflexivity | split; [reflexivity |]]].
  destruct (X24_missing_service_scales_nothing
              {| newBackend := None;
                 toProject := toProject demoManual;
                 withSelectedServices := withSelectedServices demoManual;
                 backendScale := backendScale demoManual;
                 keyOrder := ["web"; "db"]%string |}
              default_options {[ "web"%string := 5; "db"%string := 1 ]}
              demoProject demoProject "db" eq_refl eq_refl eq_refl)
    as (missing & Hrun & _).
  - right. left.
  - exists 1. reflexivity.
  - reflexivity.
  - rewrite Hrun. reflexivity.
Defined.

Lemma parseInto_accepts_all (args : list string) (acc m : gmap string Z) :
  parseInto args acc = inr m ->
  forall arg, arg ∈ args -> exists k n, parseServiceReplicas arg = inr (k, n).
Proof.
  revert acc. induction args as [| a args IH]; intros acc Hm arg Hin.
  - apply elem_of_nil in Hin. contradiction.
  - cbn [parseInto] in Hm.
    destruct (parseServiceReplicas a) as [err | [k n]] eqn:Ha; [discriminate |].
    apply elem_of_cons in Hin as [-> | Hin]; [eauto | exact (IH _ Hm arg Hin)].
Qed.

(** X25. In manual mode nothing reaches the backend unless there is at
    least one argument and every argument is an accepted
    [SERVICE=REPLICAS]: a request that was sent comes from [runScale] on
    the parsed map, and lists the sorted names of the arguments.  Without
    arguments the command fails at once. *)
Theorem X25_manual_mode_gate (env : Manual) (ticks : list Tick) (opts : scaleOptions)
    (args : list string) :
  auto opts = false ->
  (args = [] ->
   scaleCommandRun env ticks opts args
   = ManualRun None
       (Some "manual scaling requires at least one SERVICE=REPLICAS argument"%string))
  /\ (forall req err,
         scaleCommandRun env ticks opts args = ManualRun (Some req) err ->
         args <> []
         /\ (forall arg, arg ∈ args -> exists k n, parseServiceReplicas arg = inr (k, n))
         /\ exists tuples,
              parseServicesReplicasArgs args = inr tuples
              /\ runScale env opts tuples = (Some req, err)
              /\ requestServices req = sortedKeys tuples).
Proof.
  intros Hauto. unfold scaleCommandRun. rewrite Hauto. split.
  - intros ->. reflexivity.
  - intros req err Hrun. destruct args as [| a args]; [discriminate |].
    split; [discriminate |].
    destruct (parseServicesReplicasArgs (a :: args)) as [e | tuples] eqn:Hparse;
      [discriminate |].
    split; [exact (parseInto_accepts_all (a :: args) ∅ tuples Hparse) |].
    exists tuples. split; [reflexivity |].
    destruct (runScale env opts tuples) as [request e] eqn:Hscale.
    injection Hrun as -> ->. split; [reflexivity |].
    unfold runScale in Hscale.
    destruct (newBackend env); [discriminate |].
    destruct (toProject env (sortedKeys tuples)); [discriminate |].
    destruct (if noDeps opts then _ else _); [discriminate |].
    destruct (setScales (keyOrder env) tuples _); [discriminate |].
    injection Hscale as <- _. reflexivity.
Qed.

Lemma X25_manual_mode_gate_witness :
  auto default_options = false
  /\ scaleCommandRun demoManual [] default_options []
     = ManualRun None
         (Some "manual scaling requires at least one SERVICE=REPLICAS argument"%string).
Proof.
  split; [reflexivity |].
  exact (proj1 (X25_manual_mode_gate demoManual [] default_options [] eq_refl) eq_refl).
Defined.

(** X26. With services named, a scaling decision is repeated tick after
    tick: whatever the earlier ticks did, and even if the project already
    records the target, a tick whose sample gives a limited decision
    other than the startup scale of a service calls the backend for it,
    once, with that target. *)
Theorem X26_named_services_are_rescaled_every_tick (opts : scaleOptions) (p : Project)
    (names : list string) (earlier : list Tick) (t : Tick) (n : string)
    (service : ServiceConfig) (cpu mem : float64) :
  names <> [] ->
  filterServices p names !! n = Some service ->
  usage t n = (cpu, mem, None) ->
  targetScale opts service cpu mem <> currentScaleOf service ->
  NoDup (order t) -> n ∈ order t ->
  exists p',
    scaleCalls n
      (snd (fst (checkAndScale t opts
                   (fst (autoScaleLoop opts earlier (initialState p names))))))
    = [BackendScale p' n]
    /\ recordedScale p' n = Some (targetScale opts service cpu mem).
Proof.
  intros Hnames Hn Hu Hne Hnd Hin.
  assert (Hs : servicesMap (fst (autoScaleLoop opts earlier (initialState p names))) !! n
               = Some service).
  { unfold servicesMap. rewrite autoScaleLoop_services.
    destruct names as [| n0 rest]; [contradiction | exact Hn]. }
  rewrite checkAndScale_unfold. cbn [fst snd].
  destruct (rangeServices_changed t opts n service cpu mem (order t) _ Hs Hu Hne Hnd Hin)
    as (_ & p' & Hcalls & Hp').
  exists p'. split; [exact Hcalls |]. unfold recordedScale. rewrite Hp'. reflexivity.
Qed.

Lemma X26_named_services_are_rescaled_every_tick_witness :
  (["web"%string] <> [])
  /\ filterServices demoProject ["web"%string] !! "web"%string = Some (web 2)
  /\ usage (busyTick None) "web" = (of_int 80, of_int 50, None)
  /\ targetScale default_options (web 2) (of_int 80) (of_int 50) <> currentScaleOf (web 2)
  /\ NoDup (order (busyTick None))
  /\ ("web"%string ∈ order (busyTick None))
  /\ exists p',
       scaleCalls "web"
         (snd (fst (checkAndScale (busyTick None) default_options
                      (fst (autoScaleLoop default_options [busyTick None; busyTick None]
                              (initialState demoProject ["web"%string]))))))
       = [BackendScale p' "web"]
       /\ recordedScale p' "web"
          = Some (targetScale default_options (web 2) (of_int 80) (of_int 50)).
Proof.
  assert (Hnames : ["web"%string] <> []) by discriminate.
  assert (Hn : filterServices demoProject ["web"%string] !! "web"%string = Some (web 2))
    by reflexivity.
  assert (Hu : usage (busyTick None) "web" = (of_int 80, of_int 50, None)) by reflexivity.
  assert (Hne : targetScale default_options (web 2) (of_int 80) (of_int 50)
                <> currentScaleOf (web 2)) by (vm_compute; discriminate).
  assert (Hnd : NoDup (order (busyTick None))) by apply NoDup_singleton.
  assert (Hin : "web"%string ∈ order (busyTick None))
    by (apply list_elem_of_singleton; reflexivity).
  split; [exact Hnames | split; [exact Hn | split; [exact Hu | split; [exact Hne |]]]].
  split; [exact Hnd | split; [exact Hin |]].
  exact (X26_named_services_are_rescaled_every_tick default_options demoProject
           ["web"%string] [busyTick None; busyTick None] (busyTick None) "web" (web 2)
           (of_int 80) (of_int 50) Hnames Hn Hu Hne Hnd Hin).
Defined.
